(** * Format Check: a model of the plugin's tracked-path logic

    The plugin (src/main.ts, src/settings.ts) keeps a set of file paths
    judged to need formatting.  This development embeds the pure part of
    that code: the timestamp reader [toMs], the folder scope test
    [isInScope], [checkFile] and the event handlers built on it, the
    settings loader and the debounce timer.

    Conventions.
    - A JS string is a Rocq [string], one character per code unit; only
      code units below 256 occur.
    - A JS number holding a time value is a [Z] (milliseconds since the
      epoch); [None] stands for NaN where the source tests [isNaN], and
      for [null] where the source returns [null].
    - [Set<string>] is [gset string]; objects used as dictionaries are
      [gmap string _]. *)

From Stdlib Require Import ZArith Lia Ascii String List Bool.
From stdpp Require Import base option gmap sets list strings.

Local Open Scope Z_scope.

(** ** JavaScript string primitives used by the plugin *)

Module JsString.

Definition code (c : ascii) : Z := Z.of_N (N_of_ascii c).

(** WhiteSpace and LineTerminator code points below 256: TAB, LF, VT,
    FF, CR, SP and NBSP. *)
Definition isWhiteSpace (c : ascii) : bool :=
  let n := code c in
  ((9 <=? n) && (n <=? 13)) || (n =? 32) || (n =? 160).

Fixpoint trimStart (s : string) : string :=
  match s with
  | EmptyString => EmptyString
  | String c r => if isWhiteSpace c then trimStart r else s
  end.

Fixpoint trimEnd (s : string) : string :=
  match s with
  | EmptyString => EmptyString
  | String c r =>
      match trimEnd r with
      | EmptyString => if isWhiteSpace c then EmptyString else String c EmptyString
      | r' => String c r'
      end
  end.

(** [s.trim()] *)
Definition trim (s : string) : string := trimEnd (trimStart s).

(** [s.replace(a, b)] for one-character strings [a] and [b]: only the
    first occurrence is replaced. *)
Fixpoint replace (a b : ascii) (s : string) : string :=
  match s with
  | EmptyString => EmptyString
  | String c r => if Ascii.eqb c a then String b r else String c (replace a b r)
  end.

(** [s.startsWith(p)] *)
Fixpoint startsWith (s p : string) {struct p} : bool :=
  match p, s with
  | EmptyString, _ => true
  | String _ _, EmptyString => false
  | String a p', String c s' => Ascii.eqb c a && startsWith s' p'
  end.

(** [s.endsWith(p)]: some tail of [s] is [p]. *)
Fixpoint endsWith (s p : string) : bool :=
  String.eqb s p ||
  match s with
  | EmptyString => false
  | String _ r => endsWith r p
  end.

(** Truthiness of a string: non-empty. *)
Definition truthy (s : string) : bool :=
  match s with EmptyString => false | String _ _ => true end.

End JsString.

(** ** The Date built-in, as far as [toMs] uses it *)

Module JsDate.

Definition msPerDay : Z := 86400000.
Definition msPerHour : Z := 3600000.
Definition msPerMinute : Z := 60000.

(** What the runtime supplies: the local time zone adjustment (in ms,
    as a function of a local time value), and the value of [Date.parse]
    on every string other than the one form written out below, for
    which the runtime's own rules and heuristics decide ([None] is
    NaN). *)
Record Host := {
LocalTZA : Z -> Z;
parseOther : string -> option Z
}.

Definition DayFromYear (y : Z) : Z :=
  365 * (y - 1970) + (y - 1969) / 4 - (y - 1901) / 100 + (y - 1601) / 400.

Definition InLeapYear (y : Z) : bool :=
  ((y mod 4 =? 0) && negb (y mod 100 =? 0)) || (y mod 400 =? 0).

Definition DaysInMonth (y m : Z) : Z :=
  if m =? 2 then (if InLeapYear y then 29 else 28)
  else if (m =? 4) || (m =? 6) || (m =? 9) || (m =? 11) then 30
  else 31.

(** Days of the year before the first day of month [m] (1-based). *)
Definition DaysBeforeMonth (y m : Z) : Z :=
  fold_right Z.add 0 (map (DaysInMonth y) (map Z.of_nat (seq 1 (Z.to_nat (m - 1))))).

Definition MakeDay (y m d : Z) : Z := DayFromYear y + DaysBeforeMonth y m + (d - 1).
Definition MakeTime (h mi : Z) : Z := h * msPerHour + mi * msPerMinute.
Definition MakeDate (day time : Z) : Z := day * msPerDay + time.

(** [TimeClip]: a time value beyond 8.64e15 ms is NaN. *)
Definition TimeClip (t : Z) : option Z :=
  if Z.abs t <=? 8640000000000000 then Some t else None.

Definition digit (c : ascii) : option Z :=
  let n := JsString.code c in
  if (48 <=? n) && (n <=? 57) then Some (n - 48) else None.

Definition num2 (a b : ascii) : option Z :=
  x ← digit a; y ← digit b; Some (10 * x + y).

Definition num4 (a b c d : ascii) : option Z :=
  x ← num2 a b; y ← num2 c d; Some (100 * x + y).

(** The `YYYY-MM-DDTHH:mm` form of the date-time string format, with
    every element in range.  The result is the local time value. *)
Definition parseLocalMinute (s : string) : option Z :=
  match list_ascii_of_string s with
  | [y1; y2; y3; y4; "-"%char; m1; m2; "-"%char; d1; d2; "T"%char;
     h1; h2; ":"%char; n1; n2] =>
      y ← num4 y1 y2 y3 y4;
      m ← num2 m1 m2;
      d ← num2 d1 d2;
      h ← num2 h1 h2;
      mi ← num2 n1 n2;
      if (1 <=? m) && (m <=? 12) && (1 <=? d) && (d <=? DaysInMonth y m)
         && (h <=? 23) && (mi <=? 59)
      then Some (MakeDate (MakeDay y m d) (MakeTime h mi))
      else None
  | _ => None
  end.

Section WithHost.
Context (host : Host).

(** [UTC(t)]: local time value to UTC time value. *)
Definition UTC (t : Z) : Z := t - LocalTZA host t.

(** [Date.parse]: a string in the form above is a local time; any
    other string is left to the runtime. *)
Definition parse (s : string) : option Z :=
  match parseLocalMinute s with
  | Some t => TimeClip (UTC t)
  | None => parseOther host s ≫= TimeClip
  end.
End WithHost.

End JsDate.

(** ** The plugin *)

Module FormatCheck.

(** *** Data *)

(** A frontmatter value, as [toMs] tells values apart: a string, a Date
    object (with its time value, [None] for an invalid date), the value
    of a missing key, or anything else (number, boolean, null, array,
    nested object). *)
Inductive JsValue :=
| VUndefined
| VString (s : string)
| VDate (tv : option Z)
| VOther.

Record FormatCheckSettings := {
  dotColor : string;
  includedFolders : list string;
  formattedField : string;
  modifiedField : string
}.

Definition DEFAULT_SETTINGS : FormatCheckSettings := {|
  dotColor := "#f59e0b";
  includedFolders := [];
  formattedField := "formatted";
  modifiedField := "modified"
|}.

Record TFile := { path : string }.

Inductive TAbstractFile :=
| AFile (f : TFile)
| AFolder (p : string).

Record CachedMetadata := { frontmatter : option (gmap string JsValue) }.

#[global] Instance TFile_eq_dec : EqDecision TFile.
Proof. solve_decision. Defined.

(** [obj[key]] on a frontmatter object. *)
Definition prop (obj : gmap string JsValue) (key : string) : JsValue :=
  default VUndefined (obj !! key).

(** [metadataCache.getFileCache(file)?.frontmatter] *)
Definition getFrontmatter (cache : gmap string CachedMetadata) (file : TFile)
  : option (gmap string JsValue) :=
  cache !! path file ≫= frontmatter.

(** *** Pure helpers of the plugin class *)

Section WithHost.
Context (host : JsDate.Host).

Definition toMs (value : JsValue) : option Z :=
  match value with
  | VDate tv => tv
  | VString s =>
      if JsString.truthy (JsString.trim s)
      then JsDate.parse host (JsString.replace " " "T" (JsString.trim s))
      else None
  | _ => None
  end.

Definition isInScope (s : FormatCheckSettings) (p : string) : bool :=
  if (length (includedFolders s) =? 0)%nat then true
  else existsb
         (fun folder =>
            let prefix :=
              if JsString.endsWith folder "/" then folder
              else (folder ++ "/")%string in
            JsString.startsWith p prefix)
         (includedFolders s).

(** The [needsFormat] expression of [checkFile]. *)
Definition needsFormat (formattedMs modifiedMs : option Z) : bool :=
  match formattedMs with
  | None => true
  | Some f =>
      match modifiedMs with
      | None => false
      | Some m => f <? m
      end
  end.

(** [checkFile], as a function of the settings, the host's metadata
    cache and the tracked set; it returns the tracked set. *)
Definition checkFile (s : FormatCheckSettings)
    (cache : gmap string CachedMetadata) (file : TFile)
    (paths : gset string) : gset string :=
  if negb (isInScope s (path file)) then paths ∖ {[path file]}
  else
    match getFrontmatter cache file with
    | None => paths ∖ {[path file]}
    | Some fm =>
        let formattedMs := toMs (prop fm (formattedField s)) in
        let modifiedMs := toMs (prop fm (modifiedField s)) in
        if needsFormat formattedMs modifiedMs
        then {[path file]} ∪ paths
        else paths ∖ {[path file]}
    end.

Definition scanAllFiles (s : FormatCheckSettings)
    (cache : gmap string CachedMetadata) (files : list TFile) : gset string :=
  foldl (fun paths file => checkFile s cache file paths) ∅ files.

(** [applyDecorations]: from the [data-path] of each rendered
    file-tree title, the titles that carry a dot afterwards. *)
Definition applyDecorations (paths : gset string) (titles : list string)
  : list string :=
  filter (fun p => JsString.truthy p = true ∧ p ∈ paths) titles.


(** *** The plugin object in its host

    One record holds what the handlers read and write: on the host
    side the vault's Markdown files, the metadata cache, a clock and
    the plugin's pending [setTimeout] timers (id and due time) with
    the host's next timer id; on the plugin side its three fields.
    [applyRuns] counts the runs of [applyDecorations], whose only
    other effect is on the rendered tree. *)
Record World := {
  markdownFiles : list TFile;
  metadataCache : gmap string CachedMetadata;
  clock : Z;
  timers : list (Z * Z);
  nextTimerId : Z;
  settings : FormatCheckSettings;
  needsFormatPaths : gset string;
  debounceTimer : option Z;
  applyRuns : nat
}.

Definition with_files (x : list TFile) (w : World) : World :=
  {| markdownFiles := x; metadataCache := metadataCache w; clock := clock w;
     timers := timers w; nextTimerId := nextTimerId w; settings := settings w;
     needsFormatPaths := needsFormatPaths w; debounceTimer := debounceTimer w;
     applyRuns := applyRuns w |}.

Definition with_cache (x : gmap string CachedMetadata) (w : World) : World :=
  {| markdownFiles := markdownFiles w; metadataCache := x; clock := clock w;
     timers := timers w; nextTimerId := nextTimerId w; settings := settings w;
     needsFormatPaths := needsFormatPaths w; debounceTimer := debounceTimer w;
     applyRuns := applyRuns w |}.

Definition with_clock (x : Z) (w : World) : World :=
  {| markdownFiles := markdownFiles w; metadataCache := metadataCache w; clock := x;
     timers := timers w; nextTimerId := nextTimerId w; settings := settings w;
     needsFormatPaths := needsFormatPaths w; debounceTimer := debounceTimer w;
     applyRuns := applyRuns w |}.

Definition with_timers (x : list (Z * Z)) (w : World) : World :=
  {| markdownFiles := markdownFiles w; metadataCache := metadataCache w; clock := clock w;
     timers := x; nextTimerId := nextTimerId w; settings := settings w;
     needsFormatPaths := needsFormatPaths w; debounceTimer := debounceTimer w;
     applyRuns := applyRuns w |}.

Definition with_nextTimerId (x : Z) (w : World) : World :=
  {| markdownFiles := markdownFiles w; metadataCache := metadataCache w; clock := clock w;
     timers := timers w; nextTimerId := x; settings := settings w;
     needsFormatPaths := needsFormatPaths w; debounceTimer := debounceTimer w;
     applyRuns := applyRuns w |}.

Definition with_settings (x : FormatCheckSettings) (w : World) : World :=
  {| markdownFiles := markdownFiles w; metadataCache := metadataCache w; clock := clock w;
     timers := timers w; nextTimerId := nextTimerId w; settings := x;
     needsFormatPaths := needsFormatPaths w; debounceTimer := debounceTimer w;
     applyRuns := applyRuns w |}.

Definition with_paths (x : gset string) (w : World) : World :=
  {| markdownFiles := markdownFiles w; metadataCache := metadataCache w; clock := clock w;
     timers := timers w; nextTimerId := nextTimerId w; settings := settings w;
     needsFormatPaths := x; debounceTimer := debounceTimer w;
     applyRuns := applyRuns w |}.

Definition with_debounceTimer (x : option Z) (w : World) : World :=
  {| markdownFiles := markdownFiles w; metadataCache := metadataCache w; clock := clock w;
     timers := timers w; nextTimerId := nextTimerId w; settings := settings w;
     needsFormatPaths := needsFormatPaths w; debounceTimer := x;
     applyRuns := applyRuns w |}.

Definition with_applyRuns (x : nat) (w : World) : World :=
  {| markdownFiles := markdownFiles w; metadataCache := metadataCache w; clock := clock w;
     timers := timers w; nextTimerId := nextTimerId w; settings := settings w;
     needsFormatPaths := needsFormatPaths w; debounceTimer := debounceTimer w;
     applyRuns := x |}.

(** **** Host timers *)

Definition clearTimeout (id : Z) (w : World) : World :=
  with_timers (filter (fun t => t.1 ≠ id) (timers w)) w.

(** [setTimeout(cb, delay)]: the new timer's id and the world with
    the timer pending. *)
Definition setTimeout (delay : Z) (w : World) : Z * World :=
  let id := nextTimerId w in
  (id, with_nextTimerId (id + 1)
         (with_timers (timers w ++ [(id, clock w + delay)]) w)).

(** **** Methods and handlers *)

Definition debounceDelay : Z := 50.

Definition applyDecorationsW (w : World) : World :=
  with_applyRuns (S (applyRuns w)) w.

(** The callback handed to [setTimeout] by [scheduleApplyDecorations]. *)
Definition timerCallback (w : World) : World :=
  with_debounceTimer None (applyDecorationsW w).

Definition scheduleApplyDecorations (w : World) : World :=
  let w1 :=
    match debounceTimer w with
    | Some id => if bool_decide (id ≠ 0) then clearTimeout id w else w
    | None => w
    end in
  let '(id, w2) := setTimeout debounceDelay w1 in
  with_debounceTimer (Some id) w2.

Definition checkFileW (file : TFile) (w : World) : World :=
  with_paths
    (checkFile (settings w) (metadataCache w) file (needsFormatPaths w)) w.

Definition scanAllFilesW (w : World) : World :=
  with_paths (scanAllFiles (settings w) (metadataCache w) (markdownFiles w)) w.

(** [metadataCache.on('changed', ...)] *)
Definition onChanged (file : TFile) (w : World) : World :=
  scheduleApplyDecorations (checkFileW file w).

(** [workspace.on('layout-change', ...)] and the [onLayoutReady]
    callback; [setupObserver] only touches the rendered tree. *)
Definition onLayoutChange (w : World) : World := scheduleApplyDecorations w.
Definition onLayoutReady (w : World) : World := applyDecorationsW (scanAllFilesW w).

(** [vault.on('delete', ...)] *)
Definition onDelete (abstractFile : TAbstractFile) (w : World) : World :=
  match abstractFile with
  | AFile f => with_paths (needsFormatPaths w ∖ {[path f]}) w
  | AFolder _ => w
  end.

(** [vault.on('rename', ...)] *)
Definition onRename (abstractFile : TAbstractFile) (oldPath : string)
    (w : World) : World :=
  match abstractFile with
  | AFile f =>
      let wasTracked := bool_decide (oldPath ∈ needsFormatPaths w) in
      let w1 := with_paths (needsFormatPaths w ∖ {[oldPath]}) w in
      let w2 := if wasTracked then checkFileW f w1 else w1 in
      scheduleApplyDecorations w2
  | AFolder _ => w
  end.

(** [saveSettings]: [saveData] and [updateDotColor] leave the world
    above as it is. *)
Definition saveSettings (w : World) : World :=
  applyDecorationsW (scanAllFilesW w).


(** **** What the host does around each event

    The host changes its own state and then calls the handler.  A
    folder event is followed by one event per file below the folder;
    only the file events change the state modelled here. *)

(** The cache entry of [f] has been (re)computed as [c]. *)
Definition hostIndex (f : TFile) (c : CachedMetadata) (w : World) : World :=
  with_cache (<[path f := c]> (metadataCache w)) w.

(** The file [f] has left the vault. *)
Definition hostRemove (f : TFile) (w : World) : World :=
  with_cache (delete (path f) (metadataCache w))
    (with_files (filter (fun g => g ≠ f) (markdownFiles w)) w).

(** The file at [oldPath] is now [f]; [c] is the cache entry the host
    holds for the new path at that moment, if any. *)
Definition hostMove (oldPath : string) (f : TFile)
    (c : option CachedMetadata) (w : World) : World :=
  with_cache
    (partial_alter (fun _ => c) (path f) (delete oldPath (metadataCache w)))
    (with_files
       (f :: filter (fun g => g ≠ {| path := oldPath |}) (markdownFiles w)) w).

(** One turn of the host's event loop: the host's own change, if any,
    then the handler the plugin registered for the event, run to its
    next wait.  An [onChange] callback of the settings tab takes two
    turns: it assigns the new value and calls [saveSettings], which
    waits for [saveData] ([step_assign]); when [saveData] has resolved,
    [saveSettings] goes on to rescan ([step_saved]).  Any other turn may
    come between the two, and the second never comes if [saveData]
    rejects.  A timer that fires has left the host's list when its
    callback runs. *)
Inductive step : World -> World -> Prop :=
| step_layout_ready w :
    step w (onLayoutReady w)
| step_layout_change w :
    step w (onLayoutChange w)
| step_create w f :
    f ∉ markdownFiles w ->
    step w (with_files (f :: markdownFiles w) w)
| step_changed w f c :
    f ∈ markdownFiles w ->
    step w (onChanged f (hostIndex f c w))
| step_delete_file w f :
    step w (onDelete (AFile f) (hostRemove f w))
| step_delete_folder w p :
    step w (onDelete (AFolder p) w)
| step_rename_file w f oldPath c :
    {| path := oldPath |} ∈ markdownFiles w ->
    f ∉ markdownFiles w ->
    step w (onRename (AFile f) oldPath (hostMove oldPath f c w))
| step_rename_folder w p oldPath :
    step w (onRename (AFolder p) oldPath w)
| step_assign w s :
    step w (with_settings s w)
| step_saved w :
    step w (saveSettings w)
| step_tick w d :
    0 <= d ->
    step w (with_clock (clock w + d) w)
| step_fire w id due :
    (id, due) ∈ timers w ->
    due <= clock w ->
    step w (timerCallback (clearTimeout id w)).

(** The plugin right after construction: empty set, no timer.  The ids
    the host hands out for timers are positive. *)
Definition initial (w : World) : Prop :=
  needsFormatPaths w = ∅ ∧ debounceTimer w = None ∧ timers w = [] ∧
  0 < nextTimerId w.

Definition reachable (w : World) : Prop :=
  ∃ w0, initial w0 ∧ rtc step w0 w.





(** The host lets [d] ms pass and runs every timer that is due. *)
Definition runDueTimers (w : World) : World :=
  foldl (fun w' t => timerCallback (clearTimeout t.1 w')) w
        (filter (fun t => t.2 <= clock w) (timers w)).

Definition advance (d : Z) (w : World) : World :=
  runDueTimers (with_clock (clock w + d) w).

(** A burst: a call of [scheduleApplyDecorations], then for each gap
    in turn the host advancing by the gap and another call. *)
Fixpoint burst (gaps : list Z) (w : World) : World :=
  match gaps with
  | [] => scheduleApplyDecorations w
  | d :: rest => burst rest (advance d (scheduleApplyDecorations w))
  end.

End WithHost.

(** *** Settings loading *)

(** [Partial<FormatCheckSettings>]: any of the four fields may be
    missing. *)
Record PartialSettings := {
  dotColor_opt : option string;
  includedFolders_opt : option (list string);
  formattedField_opt : option string;
  modifiedField_opt : option string
}.

(** The empty object literal. *)
Definition emptyObject : PartialSettings :=
  {| dotColor_opt := None; includedFolders_opt := None;
     formattedField_opt := None; modifiedField_opt := None |}.

(** A settings record seen as an object with all four properties. *)
Definition asObject (s : FormatCheckSettings) : PartialSettings :=
  {| dotColor_opt := Some (dotColor s);
     includedFolders_opt := Some (includedFolders s);
     formattedField_opt := Some (formattedField s);
     modifiedField_opt := Some (modifiedField s) |}.

(** Copying the own properties of one source onto the target. *)
Definition assignFrom (target source : PartialSettings) : PartialSettings :=
  {| dotColor_opt := from_option Some (dotColor_opt target) (dotColor_opt source);
     includedFolders_opt :=
       from_option Some (includedFolders_opt target) (includedFolders_opt source);
     formattedField_opt :=
       from_option Some (formattedField_opt target) (formattedField_opt source);
     modifiedField_opt :=
       from_option Some (modifiedField_opt target) (modifiedField_opt source) |}.

(** [Object.assign(target, ...sources)]; a [null] source is skipped. *)
Definition Object_assign (target : PartialSettings)
    (sources : list (option PartialSettings)) : PartialSettings :=
  foldl (fun t src => from_option (assignFrom t) t src) target sources.

(** [loadSettings]: [data] is what [loadData()] resolves to, [None]
    being [null] (nothing stored yet). *)
Definition loadSettings (data : option PartialSettings) : PartialSettings :=
  Object_assign emptyObject [Some (asObject DEFAULT_SETTINGS); data].

(** *** The needs-formatting rule as the documentation words it *)

(** True if the formatted value is absent, or if both values are
    present and formatted precedes modified. *)
Definition NeedsFormattingRule (formatted modified : option Z) : Prop :=
  formatted = None ∨
  ∃ f m, formatted = Some f ∧ modified = Some m ∧ f < m.

(** The folder scope as the settings describe it: the path starts with
    the folder entry followed by the separator, the separator being
    added only to an entry that does not end with one already. *)
Definition EndsWithSeparator (folder : string) : Prop :=
  ∃ r, folder = (r ++ "/")%string.

Definition StartsInFolder (p folder : string) : Prop :=
  ∃ rest,
    (EndsWithSeparator folder ∧ p = (folder ++ rest)%string) ∨
    (¬ EndsWithSeparator folder ∧ p = (folder ++ "/" ++ rest)%string).

(** *** Derived notions used in the statements *)

(** What [checkFile] decides for a file: [true] adds its path to the
    tracked set, [false] removes it. *)
Definition verdict (host : JsDate.Host) (s : FormatCheckSettings)
    (cache : gmap string CachedMetadata) (file : TFile) : bool :=
  isInScope s (path file) &&
  from_option
    (fun fm => needsFormat (toMs host (prop fm (formattedField s)))
                           (toMs host (prop fm (modifiedField s))))
    false (getFrontmatter cache file).

(** The settings with the two field names exchanged. *)
Definition swapFields (s : FormatCheckSettings) : FormatCheckSettings :=
  {| dotColor := dotColor s; includedFolders := includedFolders s;
     formattedField := modifiedField s; modifiedField := formattedField s |}.


(** Every tracked path belongs to a file of the vault and has a
    positive verdict under the current settings and cache. *)
Definition Sound (host : JsDate.Host) (files : list TFile)
    (s : FormatCheckSettings) (cache : gmap string CachedMetadata)
    (paths : gset string) : Prop :=
  forall p, p ∈ paths ->
    {| path := p |} ∈ files /\ verdict host s cache {| path := p |} = true.

(** Every tracked path belongs to a file of the vault and has a
    positive verdict under settings related by [R] to the current ones. *)
Definition TrackedUnder (host : JsDate.Host)
    (R : FormatCheckSettings -> FormatCheckSettings -> Prop) (w : World) : Prop :=
  forall p, p ∈ needsFormatPaths w ->
    {| path := p |} ∈ markdownFiles w /\
    exists s, R s (settings w) /\
      verdict host s (metadataCache w) {| path := p |} = true.

(** The debounce field and the host's timer list agree: no timer is
    pending and the field is [null], or the field holds the id of the
    one pending timer. *)
Definition TimerInv (w : World) : Prop :=
  0 < nextTimerId w /\
  ((debounceTimer w = None /\ timers w = []) \/
   (exists id due, 0 < id /\ debounceTimer w = Some id /\
                   timers w = [(id, due)])).

(** The failure modes the documentation lists for a file: no cache
    entry, one of the two fields missing from the frontmatter, a field
    whose value is not a readable timestamp, or a path out of scope. *)
Definition FailureMode (host : JsDate.Host) (s : FormatCheckSettings)
    (cache : gmap string CachedMetadata) (file : TFile) : Prop :=
  cache !! path file = None \/
  (exists fm key, getFrontmatter cache file = Some fm /\
     (key = formattedField s \/ key = modifiedField s) /\
     (fm !! key = None \/ toMs host (prop fm key) = None)) \/
  isInScope s (path file) = false.

(** No marker for [p]: the path is not tracked, so no rendered title
    for it gets a dot. *)
Definition Unmarked (paths : gset string) (p : string) : Prop :=
  (p ∉ paths) ∧ (∀ titles, p ∉ applyDecorations paths titles).

End FormatCheck.

(** ** Concrete hosts, vaults and frontmatter used in the examples *)

Module Examples.
Import FormatCheck.

(** A runtime in UTC that rejects every string outside the modelled
    date-time form. *)
Definition utc : JsDate.Host :=
  {| JsDate.LocalTZA := fun _ => 0; JsDate.parseOther := fun _ => None |}.

Definition note : TFile := {| path := "notes/a.md" |}.

Definition stale : gmap string JsValue :=
  {[ "modified" := VString "2026-01-15 09:30";
     "formatted" := VString "2026-01-14 18:00" ]}.

Definition fresh : gmap string JsValue :=
  {[ "modified" := VString "2026-01-14 18:00";
     "formatted" := VString "2026-01-15 09:30" ]}.

Definition cacheOf (fm : option (gmap string JsValue))
  : gmap string CachedMetadata :=
  {[ "notes/a.md" := {| frontmatter := fm |} ]}.

Definition scoped : FormatCheckSettings :=
  {| dotColor := "#f59e0b"; includedFolders := ["notes"];
     formattedField := "formatted"; modifiedField := "modified" |}.

(** A freshly constructed plugin in a vault holding [note]. *)
Definition world0 (fm : option (gmap string JsValue)) : World :=
  {| markdownFiles := [note]; metadataCache := cacheOf fm; clock := 0;
     timers := []; nextTimerId := 1; settings := scoped;
     needsFormatPaths := ∅; debounceTimer := None; applyRuns := 0 |}.

Definition elsewhere : TFile := {| path := "other/b.md" |}.
Definition renamed : TFile := {| path := "notes/b.md" |}.

(** Frontmatter with a formatted time only, and with a formatted value
    that is no timestamp. *)
Definition formattedOnly : gmap string JsValue :=
  {[ "formatted" := VString "2026-01-14 18:00" ]}.

(** [stale] with one more key. *)
Definition staleTitled : gmap string JsValue :=
  <[ "title" := VString "A note" ]> stale.

Definition unreadable : gmap string JsValue :=
  {[ "modified" := VString "2026-01-15 09:30";
     "formatted" := VString "yesterday" ]}.

(** Local time values of the two timestamps of the README example. *)
Definition t_0115_0930 : Z := 1768469400000.
Definition t_0114_1800 : Z := 1768413600000.

End Examples.

(** ** More of the JavaScript library: split, join *)

Module JsText.

Definition newline : ascii := "010"%char.

(** The first segment of [s] and the segments after it, cut at every
    occurrence of [sep]. *)
Fixpoint splitAux (sep : ascii) (s : string) : string * list string :=
  match s with
  | EmptyString => (EmptyString, [])
  | String c r =>
      let '(h, t) := splitAux sep r in
      if Ascii.eqb c sep then (EmptyString, h :: t) else (String c h, t)
  end.

(** [s.split(sep)] for a one-character separator: never an empty array,
    the empty string gives one empty segment. *)
Definition split (sep : ascii) (s : string) : list string :=
  let '(h, t) := splitAux sep s in h :: t.

(** [l.join(sep)] *)
Fixpoint join (sep : string) (l : list string) : string :=
  match l with
  | [] => EmptyString
  | x :: rest =>
      match rest with
      | [] => x
      | _ :: _ => (x ++ sep ++ join sep rest)%string
      end
  end.

(** Whether the character [c] occurs in [s]. *)
Fixpoint contains (c : ascii) (s : string) : bool :=
  match s with
  | EmptyString => false
  | String a r => Ascii.eqb a c || contains c r
  end.

(** Whether [s] is made of white space only. *)
Fixpoint allWhiteSpace (s : string) : bool :=
  match s with
  | EmptyString => true
  | String a r => JsString.isWhiteSpace a && allWhiteSpace r
  end.

End JsText.

(** ** The settings tab *)

Module SettingsTab.
Import FormatCheck.

(** The text shown in the folder text area:
    [includedFolders.join('\n')]. *)
Definition foldersText (s : FormatCheckSettings) : string :=
  JsText.join (String JsText.newline EmptyString) (includedFolders s).

(** The list the folder text area's [onChange] stores:
    [value.split('\n').map(f => f.trim()).filter(f => f.length > 0)]. *)
Definition parseFolders (value : string) : list string :=
  filter (fun f => (0 < String.length f)%nat)
         (map JsString.trim (JsText.split JsText.newline value)).

(** A folder entry in the form the text area's [onChange] leaves it:
    not empty, no white space at either end, no line break inside. *)
Definition CleanEntry (f : string) : Prop :=
  f <> EmptyString /\ JsString.trim f = f /\
  JsText.contains JsText.newline f = false.

(** The name a field-name input's [onChange] stores: the trimmed value,
    or the default when nothing is left. *)
Definition fieldName (value default_ : string) : string :=
  let trimmed := JsString.trim value in
  if (0 <? String.length trimmed)%nat then trimmed else default_.

(** The assignments the four [onChange] callbacks make to the settings
    before they call [saveSettings]. *)
Definition setDotColor (value : string) (s : FormatCheckSettings)
  : FormatCheckSettings :=
  {| dotColor := value; includedFolders := includedFolders s;
     formattedField := formattedField s; modifiedField := modifiedField s |}.

Definition setIncludedFolders (value : string) (s : FormatCheckSettings)
  : FormatCheckSettings :=
  {| dotColor := dotColor s; includedFolders := parseFolders value;
     formattedField := formattedField s; modifiedField := modifiedField s |}.

Definition setFormattedField (value : string) (s : FormatCheckSettings)
  : FormatCheckSettings :=
  {| dotColor := dotColor s; includedFolders := includedFolders s;
     formattedField := fieldName value (formattedField DEFAULT_SETTINGS);
     modifiedField := modifiedField s |}.

Definition setModifiedField (value : string) (s : FormatCheckSettings)
  : FormatCheckSettings :=
  {| dotColor := dotColor s; includedFolders := includedFolders s;
     formattedField := formattedField s;
     modifiedField := fieldName value (modifiedField DEFAULT_SETTINGS) |}.

(** An [onChange] callback as a whole: the assignment, then
    [saveSettings]. *)
Definition onChange (host : JsDate.Host)
    (assign : FormatCheckSettings -> FormatCheckSettings) (w : World) : World :=
  saveSettings host (with_settings (assign (settings w)) w).

(** The settings with every folder entry given its trailing separator. *)
Definition withSeparators (s : FormatCheckSettings) : FormatCheckSettings :=
  {| dotColor := dotColor s;
     includedFolders :=
       map (fun folder =>
              if JsString.endsWith folder "/" then folder
              else (folder ++ "/")%string)
           (includedFolders s);
     formattedField := formattedField s; modifiedField := modifiedField s |}.

End SettingsTab.

(** ** Decorating the rendered file tree *)

Module Decoration.
Import FormatCheck.

(** A [.nav-file-title] element of the rendered tree, as the plugin sees
    it: its [data-path] attribute, if it has one, and the number of
    [.format-check-dot] spans inside it.  The plugin creates such spans
    nowhere else, so the rendered tree is the list of its titles. *)
Record NavTitle := {
  dataPath : option string;
  dots : nat
}.

(** [path && this.needsFormatPaths.has(path)] for the element's path. *)
Definition wanted (paths : gset string) (t : NavTitle) : bool :=
  match dataPath t with
  | Some p => JsString.truthy p && bool_decide (p ∈ paths)
  | None => false
  end.

(** [el.createSpan({ cls: 'format-check-dot' })] *)
Definition createSpan (t : NavTitle) : NavTitle :=
  {| dataPath := dataPath t; dots := S (dots t) |}.

(** [querySelectorAll('.format-check-dot').forEach(el => el.remove())] *)
Definition removeDots (dom : list NavTitle) : list NavTitle :=
  map (fun t => {| dataPath := dataPath t; dots := 0 |}) dom.

(** [applyDecorations] on the rendered tree. *)
Definition applyDecorationsDom (paths : gset string) (dom : list NavTitle)
  : list NavTitle :=
  map (fun t => if wanted paths t then createSpan t else t) (removeDots dom).

(** The [decorate] closure of the mutation observer. *)
Definition decorate (paths : gset string) (t : NavTitle) : NavTitle :=
  if wanted paths t && (dots t =? 0)%nat then createSpan t else t.

(** The observer's callback: [added] lists the positions of the titles
    found in the added nodes, in the order they are visited (a position
    past the end stands for an added node that is no title). *)
Definition onMutations (paths : gset string) (added : list nat)
    (dom : list NavTitle) : list NavTitle :=
  foldl (fun d i => alter (decorate paths) i d) dom added.

(** The data paths of the titles that carry a dot. *)
Definition dotted (dom : list NavTitle) : list string :=
  omap (fun t => if (0 <? dots t)%nat then dataPath t else None) dom.

(** *** The observer field and the host's observers *)

(** [observer] is the plugin's field (the identity of the observer
    object, or [null]); [connected] lists the observers that are
    observing; [nextObserver] is the identity of the next object
    created. *)
Record Observers := {
  observer : option nat;
  connected : list nat;
  nextObserver : nat
}.

(** [o.disconnect()] *)
Definition disconnect (o : nat) (st : Observers) : Observers :=
  {| observer := observer st;
     connected := filter (fun x => x ≠ o) (connected st);
     nextObserver := nextObserver st |}.

(** [setupObserver]; [hasContainer] tells whether the file explorer
    container is in the document. *)
Definition setupObserver (hasContainer : bool) (st : Observers) : Observers :=
  let st1 :=
    match observer st with
    | Some o => disconnect o st
    | None => st
    end in
  if negb hasContainer then st1
  else {| observer := Some (nextObserver st1);
          connected := connected st1 ++ [nextObserver st1];
          nextObserver := S (nextObserver st1) |}.

(** *** Unloading *)

(** The three parts of [onunload]: the observer, the timer, the dots. *)
Definition onunloadObservers (st : Observers) : Observers :=
  let st1 :=
    match observer st with
    | Some o => disconnect o st
    | None => st
    end in
  {| observer := None; connected := connected st1;
     nextObserver := nextObserver st1 |}.

Definition onunloadW (w : World) : World :=
  match debounceTimer w with
  | Some id => if bool_decide (id ≠ 0) then clearTimeout id w else w
  | None => w
  end.

Definition onunloadDom (dom : list NavTitle) : list NavTitle := removeDots dom.

(** A fresh plugin: no observer yet. *)
Definition noObserver (st : Observers) : Prop :=
  observer st = None /\ connected st = [].

(** No observer is connected, or the one that is connected is the one
    the plugin's field holds. *)
Definition ObserversInv (st : Observers) : Prop :=
  connected st = [] \/ exists o, observer st = Some o /\ connected st = [o].

(** What [applyDecorations] makes of one title. *)
Definition refresh (paths : gset string) (t : NavTitle) : NavTitle :=
  let t0 := {| dataPath := dataPath t; dots := 0 |} in
  if wanted paths t0 then createSpan t0 else t0.

(** A tree as [applyDecorations] leaves it for the tracked set. *)
Definition WellDecorated (paths : gset string) (dom : list NavTitle) : Prop :=
  applyDecorationsDom paths dom = dom.

End Decoration.

(** ** The tracked set as the exact set of files to format *)

Module Exactness.
Import FormatCheck.

(** The tracked paths are exactly the paths of the vault's files with a
    positive verdict. *)
Definition Exact (host : JsDate.Host) (files : list TFile)
    (s : FormatCheckSettings) (cache : gmap string CachedMetadata)
    (paths : gset string) : Prop :=
  forall p, p ∈ paths <->
    exists f, f ∈ files /\ path f = p /\ verdict host s cache f = true.

Definition ExactW (host : JsDate.Host) (w : World) : Prop :=
  Exact host (markdownFiles w) (settings w) (metadataCache w)
        (needsFormatPaths w).

(** The first character of [s], if any, is not white space. *)
Definition startsClean (s : string) : Prop :=
  match s with
  | EmptyString => True
  | String c _ => JsString.isWhiteSpace c = false
  end.

End Exactness.

(** ** More concrete inputs *)

Module MoreExamples.
Import FormatCheck Examples Decoration.

(** A world after one call of [scheduleApplyDecorations]. *)
Definition scheduled : World := scheduleApplyDecorations (world0 None).

(** A rendered tree with a stale double dot, a title without path and
    an undecorated title. *)
Definition tree : list NavTitle :=
  [ {| dataPath := Some "notes/a.md"; dots := 2 |};
    {| dataPath := None; dots := 0 |};
    {| dataPath := Some "notes/b.md"; dots := 0 |} ].

Definition nestedScope : FormatCheckSettings :=
  {| dotColor := "#f59e0b"; includedFolders := ["notes"; "library/"];
     formattedField := "formatted"; modifiedField := "modified" |}.

(** The vault of [world0] after its first scan. *)
Definition scanned : World := onLayoutReady utc (world0 (Some stale)).



Definition onlyNote : gset string := {[ "notes/a.md" ]}.

Definition decoratedNote : NavTitle :=
  {| dataPath := Some "notes/a.md"; dots := 1 |}.

Definition freshTitle : NavTitle :=
  {| dataPath := Some "notes/b.md"; dots := 0 |}.

Definition noObservers : Observers :=
  {| observer := None; connected := []; nextObserver := 0 |}.

(** Text of a folder text area: two entries, blanks and an empty line. *)
Definition foldersInput : string :=
  String " " ("notes " ++ String JsText.newline
    (String JsText.newline "library/")).

Definition blankInput : string :=
  String " " (String JsText.newline "  ").

End MoreExamples.

(** ** Facts about the string primitives *)

Section StringFacts.
Import JsString.

Lemma ascii_eqb_true (a b : ascii) : Ascii.eqb a b = true <-> a = b.
Proof. apply Ascii.eqb_eq. Qed.

Lemma append_cons (c : ascii) (a b : string) :
  (String c a ++ b)%string = String c (a ++ b)%string.
Proof. reflexivity. Qed.

Lemma append_assoc (a b c : string) :
  ((a ++ b) ++ c)%string = (a ++ (b ++ c))%string.
Proof.
  induction a as [|x a IH]; [reflexivity|].
  rewrite !append_cons, IH. reflexivity.
Qed.

Lemma startsWith_app (s p : string) :
  startsWith s p = true <-> exists rest, s = (p ++ rest)%string.
Proof.
  revert s. induction p as [|a p IH]; intros s; simpl.
  - split; [intros _; exists s; reflexivity | reflexivity].
  - destruct s as [|c s].
    + split; [discriminate | intros [rest H]; discriminate].
    + rewrite andb_true_iff, ascii_eqb_true, IH. split.
      * intros [-> [rest ->]]. exists rest. reflexivity.
      * intros [rest H]. injection H as -> ->. split; [reflexivity | eauto].
Qed.

Lemma endsWith_unfold (s p : string) :
  endsWith s p =
  String.eqb s p || match s with EmptyString => false | String _ r => endsWith r p end.
Proof. destruct s; reflexivity. Qed.

Lemma endsWith_app (s p : string) :
  endsWith s p = true <-> exists r, s = (r ++ p)%string.
Proof.
  induction s as [|c s IH]; rewrite endsWith_unfold.
  - rewrite orb_false_r, String.eqb_eq. split.
    + intros <-. exists EmptyString. reflexivity.
    + intros [r H]. destruct r as [|c r].
      * exact H.
      * change (EmptyString = String c (r ++ p)%string) in H. discriminate.
  - rewrite orb_true_iff, String.eqb_eq, IH. split.
    + intros [<- | [r ->]].
      * exists EmptyString. reflexivity.
      * exists (String c r). reflexivity.
    + intros [r H]. destruct r as [|c' r].
      * left. exact H.
      * change (String c s = String c' (r ++ p)%string) in H.
        right. injection H as -> ->. eauto.
Qed.

End StringFacts.

(** ** The scope test and [checkFile] *)

Section CheckFile.
Import FormatCheck.
Context (host : JsDate.Host).

Lemma isInScope_empty (s : FormatCheckSettings) (p : string) :
  includedFolders s = [] -> isInScope s p = true.
Proof. unfold isInScope. intros ->. reflexivity. Qed.

Lemma isInScope_folder (s : FormatCheckSettings) (p : string) :
  includedFolders s <> [] ->
  isInScope s p = true <->
  exists folder, folder ∈ includedFolders s /\ StartsInFolder p folder.
Proof.
  intros Hne. unfold isInScope.
  destruct (includedFolders s) as [|x l] eqn:E; [congruence|].
  cbn [length Nat.eqb]. rewrite existsb_exists. split.
  - intros (folder & Hin & Hpre). exists folder.
    split; [by apply list_elem_of_In|].
    apply startsWith_app in Hpre as [rest Hrest].
    exists rest. destruct (JsString.endsWith folder "/") eqn:Hend.
    + left. split; [by apply endsWith_app | done].
    + right. split.
      * intros Hs. apply endsWith_app in Hs. congruence.
      * by rewrite Hrest, append_assoc.
  - intros (folder & Hin & rest & Hcase). exists folder.
    split; [by apply list_elem_of_In|].
    apply startsWith_app.
    destruct Hcase as [[Hs ->] | [Hs ->]].
    + apply endsWith_app in Hs. rewrite Hs. eauto.
    + destruct (JsString.endsWith folder "/") eqn:Hend.
      * exfalso. apply Hs. by apply endsWith_app.
      * exists rest. by rewrite append_assoc.
Qed.

(** [checkFile] adds or removes the one path, by the verdict. *)
Lemma checkFile_verdict s cache file paths :
  checkFile host s cache file paths =
  if verdict host s cache file then {[path file]} ∪ paths
  else paths ∖ {[path file]}.
Proof.
  unfold checkFile, verdict.
  destruct (isInScope s (path file)); simpl; [|done].
  destruct (getFrontmatter cache file); simpl; done.
Qed.

Lemma elem_of_checkFile s cache file paths q :
  q ∈ checkFile host s cache file paths <->
  (q = path file /\ verdict host s cache file = true) \/
  (q <> path file /\ q ∈ paths).
Proof.
  rewrite checkFile_verdict.
  destruct (verdict host s cache file).
  - rewrite elem_of_union, elem_of_singleton.
    destruct (decide (q = path file)); intuition congruence.
  - rewrite elem_of_difference, elem_of_singleton. intuition congruence.
Qed.

Lemma checkFile_self s cache file paths :
  path file ∈ checkFile host s cache file paths <->
  verdict host s cache file = true.
Proof. rewrite elem_of_checkFile. intuition congruence. Qed.

Lemma toMs_missing (fm : gmap string JsValue) key :
  fm !! key = None -> toMs host (prop fm key) = None.
Proof. unfold prop. intros ->. reflexivity. Qed.

Lemma untracked_unmarked (paths : gset string) p :
  p ∉ paths -> Unmarked paths p.
Proof.
  intros Hp. split; [done|]. intros titles Hin.
  unfold applyDecorations in Hin. apply list_elem_of_filter in Hin.
  tauto.
Qed.

Lemma verdict_false_unmarked s cache file paths :
  verdict host s cache file = false ->
  Unmarked (checkFile host s cache file paths) (path file).
Proof.
  intros Hv. apply untracked_unmarked. rewrite checkFile_self. congruence.
Qed.

Lemma verdict_out_of_scope s cache file :
  isInScope s (path file) = false -> verdict host s cache file = false.
Proof. unfold verdict. intros ->. reflexivity. Qed.

Lemma verdict_no_frontmatter s cache file :
  getFrontmatter cache file = None -> verdict host s cache file = false.
Proof. unfold verdict. intros ->. apply andb_false_r. Qed.

Lemma verdict_frontmatter s cache file fm :
  isInScope s (path file) = true ->
  getFrontmatter cache file = Some fm ->
  verdict host s cache file =
  needsFormat (toMs host (prop fm (formattedField s)))
              (toMs host (prop fm (modifiedField s))).
Proof. unfold verdict. intros -> ->. reflexivity. Qed.

(** *** Claims about [checkFile] *)

(** C1 (amended). Out of scope, without a cache entry, without a
    frontmatter object, or with a readable formatted time but no
    readable modified time, the file ends up unmarked.  A file in scope
    whose frontmatter has no readable formatted time (the field missing
    or its value not a timestamp) ends up tracked. *)
Theorem checkFile_failure_modes s cache file paths :
  (isInScope s (path file) = false ->
     Unmarked (checkFile host s cache file paths) (path file)) /\
  (cache !! path file = None ->
     Unmarked (checkFile host s cache file paths) (path file)) /\
  (forall cm, cache !! path file = Some cm -> frontmatter cm = None ->
     Unmarked (checkFile host s cache file paths) (path file)) /\
  (forall fm a, getFrontmatter cache file = Some fm ->
     toMs host (prop fm (formattedField s)) = Some a ->
     toMs host (prop fm (modifiedField s)) = None ->
     Unmarked (checkFile host s cache file paths) (path file)) /\
  (forall fm, isInScope s (path file) = true ->
     getFrontmatter cache file = Some fm ->
     toMs host (prop fm (formattedField s)) = None ->
     path file ∈ checkFile host s cache file paths).
Proof.
  split_and!.
  - intros H. by apply verdict_false_unmarked, verdict_out_of_scope.
  - intros H. apply verdict_false_unmarked, verdict_no_frontmatter.
    unfold getFrontmatter. by rewrite H.
  - intros cm H1 H2. apply verdict_false_unmarked, verdict_no_frontmatter.
    unfold getFrontmatter. by rewrite H1.
  - intros fm a Hfm Ha Hb. apply verdict_false_unmarked.
    destruct (isInScope s (path file)) eqn:Hs;
      [|by apply verdict_out_of_scope].
    rewrite (verdict_frontmatter _ _ _ fm), Ha, Hb by done. reflexivity.
  - intros fm Hs Hfm Ha. apply checkFile_self.
    rewrite (verdict_frontmatter _ _ _ fm), Ha by done. reflexivity.
Qed.

(** C2. The predicate is the documented rule: true when the formatted
    value is absent, or when both are present and formatted is strictly
    before modified; false when both are present with formatted at or
    after modified, and when only the formatted value is present. *)
Theorem needsFormat_rule (formatted modified : option Z) :
  (needsFormat formatted modified = true <->
     NeedsFormattingRule formatted modified) /\
  (forall x y, formatted = Some x -> modified = Some y -> y <= x ->
     needsFormat formatted modified = false) /\
  (forall x, formatted = Some x -> modified = None ->
     needsFormat formatted modified = false).
Proof.
  unfold NeedsFormattingRule. split_and!; [split|..].
  - destruct formatted as [f|]; [|by left].
    destruct modified as [m|]; simpl; [|discriminate].
    intros H. right. exists f, m. apply Z.ltb_lt in H. done.
  - intros [-> | (f & m & -> & -> & H)]; [reflexivity|].
    simpl. by apply Z.ltb_lt.
  - intros x y -> -> H. simpl. apply Z.ltb_ge. lia.
  - intros x -> ->. reflexivity.
Qed.

(** C3 (amended). For a file in scope whose cache entry has a
    frontmatter object without the formatted field, [checkFile] tracks
    the path; a file with no frontmatter object at all is removed from
    the tracked set. *)
Theorem checkFile_no_formatted_value s cache file paths :
  isInScope s (path file) = true ->
  (forall fm, getFrontmatter cache file = Some fm ->
     fm !! formattedField s = None ->
     path file ∈ checkFile host s cache file paths) /\
  (getFrontmatter cache file = None ->
     path file ∉ checkFile host s cache file paths).
Proof.
  intros Hs. split.
  - intros fm Hfm Hk. apply checkFile_self.
    rewrite (verdict_frontmatter _ _ _ fm) by done.
    by rewrite (toMs_missing _ _ Hk).
  - intros Hfm. rewrite checkFile_self, verdict_no_frontmatter; done.
Qed.

(** C5. With a non-empty folder list, a file whose path starts in none
    of the listed folders is not tracked after [checkFile], whatever
    its cache entry holds and whatever the set held before. *)
Theorem checkFile_out_of_scope s cache file paths :
  includedFolders s <> [] ->
  (forall folder, folder ∈ includedFolders s ->
     ~ StartsInFolder (path file) folder) ->
  path file ∉ checkFile host s cache file paths.
Proof.
  intros Hne Hout. rewrite checkFile_self, verdict_out_of_scope; [done|].
  apply not_true_is_false. intros Hs.
  apply isInScope_folder in Hs as (folder & Hin & Hstart); [|done].
  by apply (Hout folder).
Qed.

Lemma needsFormat_true_iff (formatted modified : option Z) :
  needsFormat formatted modified = true <->
  NeedsFormattingRule formatted modified.
Proof.
  unfold NeedsFormattingRule. destruct formatted as [f|], modified as [m|];
    simpl; rewrite ?Z.ltb_lt; split; try (intros _; by left); try done.
  - intros H. right. by exists f, m.
  - intros [H | (x & y & Hx & Hy & H)]; [done | congruence].
  - intros [H | (x & y & Hx & Hy & H)]; done.
Qed.

(** The timestamp [checkFile] reads under a key: the one of the value
    stored there, none when the key is missing. *)
Lemma toMs_prop (fm : gmap string JsValue) key :
  toMs host (prop fm key) = fm !! key ≫= toMs host.
Proof. unfold prop. by destruct (fm !! key). Qed.

(** C7. For a file in scope with frontmatter, let [formatted] and
    [modified] be the timestamps stored under the two configured keys.
    [checkFile] tracks the file exactly when the documented rule holds
    of [formatted] and [modified]; with the two field names exchanged it
    tracks the file exactly when the rule holds of [modified] and
    [formatted].  So when both are readable and differ, exchanging the
    names flips the outcome; and the outcome under the exchanged names
    depends on the frontmatter through these two keys only. *)
Theorem checkFile_swapped_fields s cache file paths fm :
  isInScope s (path file) = true ->
  getFrontmatter cache file = Some fm ->
  let formatted := fm !! formattedField s ≫= toMs host in
  let modified := fm !! modifiedField s ≫= toMs host in
  (path file ∈ checkFile host s cache file paths <->
     NeedsFormattingRule formatted modified) /\
  (path file ∈ checkFile host (swapFields s) cache file paths <->
     NeedsFormattingRule modified formatted) /\
  (forall x y, formatted = Some x -> modified = Some y -> x <> y ->
     (path file ∈ checkFile host (swapFields s) cache file paths <->
      path file ∉ checkFile host s cache file paths)) /\
  (forall cache' fm',
     getFrontmatter cache' file = Some fm' ->
     fm' !! formattedField s = fm !! formattedField s ->
     fm' !! modifiedField s = fm !! modifiedField s ->
     (path file ∈ checkFile host (swapFields s) cache file paths <->
      path file ∈ checkFile host (swapFields s) cache' file paths)).
Proof.
  intros Hs Hfm formatted modified.
  assert (Hplain : path file ∈ checkFile host s cache file paths <->
            NeedsFormattingRule formatted modified).
  { rewrite checkFile_self, (verdict_frontmatter _ _ _ fm) by done.
    rewrite !toMs_prop. apply needsFormat_true_iff. }
  assert (Hswap : forall cache' fm',
            getFrontmatter cache' file = Some fm' ->
            path file ∈ checkFile host (swapFields s) cache' file paths <->
            NeedsFormattingRule (fm' !! modifiedField s ≫= toMs host)
                                (fm' !! formattedField s ≫= toMs host)).
  { intros cache' fm' Hfm'.
    rewrite checkFile_self, (verdict_frontmatter _ _ _ fm') by done.
    cbn [swapFields formattedField modifiedField].
    rewrite !toMs_prop. apply needsFormat_true_iff. }
  split_and!.
  - exact Hplain.
  - by apply Hswap.
  - intros x y Hx Hy Hne. rewrite Hplain, (Hswap cache fm Hfm).
    fold formatted modified. rewrite Hx, Hy. unfold NeedsFormattingRule. split.
    + intros [H | (a & b & Ha & Hb & Hlt)]; [done|].
      intros [H | (a' & b' & Ha' & Hb' & Hlt')]; [done|].
      simplify_eq. lia.
    + intros Hnot. right. exists y, x. split_and!; [done | done |].
      destruct (Z.lt_trichotomy x y) as [Hlt | [Heq | Hgt]]; [|done|lia].
      exfalso. apply Hnot. right. by exists x, y.
  - intros cache' fm' Hfm' Hf Hm.
    rewrite (Hswap cache fm Hfm), (Hswap cache' fm' Hfm'), Hf, Hm. done.
Qed.

End CheckFile.

(** ** Timestamps in the documented layout *)

Section Timestamps.
Import FormatCheck Examples.
Context (host : JsDate.Host).

Lemma parse_local (s : string) (t : Z) :
  JsDate.parseLocalMinute s = Some t ->
  Z.abs (JsDate.UTC host t) <= 8640000000000000 ->
  JsDate.parse host s = Some (JsDate.UTC host t).
Proof.
  intros Hs Hb. unfold JsDate.parse, JsDate.TimeClip. rewrite Hs.
  apply Z.leb_le in Hb. by rewrite Hb.
Qed.

Lemma toMs_local (s : string) (t : Z) :
  JsString.truthy (JsString.trim s) = true ->
  JsDate.parseLocalMinute (JsString.replace " " "T" (JsString.trim s)) = Some t ->
  Z.abs (JsDate.UTC host t) <= 8640000000000000 ->
  toMs host (VString s) = Some (JsDate.UTC host t).
Proof.
  intros Ht Hs Hb. unfold toMs. rewrite Ht. by apply parse_local.
Qed.

Lemma stale_fields :
  prop stale "formatted" = VString "2026-01-14 18:00" /\
  prop stale "modified" = VString "2026-01-15 09:30".
Proof. split; reflexivity. Qed.

Lemma fresh_fields :
  prop fresh "formatted" = VString "2026-01-15 09:30" /\
  prop fresh "modified" = VString "2026-01-14 18:00".
Proof. split; reflexivity. Qed.

Lemma cacheOf_note fm : getFrontmatter (cacheOf fm) note = fm.
Proof. unfold getFrontmatter, cacheOf, note. simpl. by rewrite lookup_singleton_eq. Qed.

(** C6. In a time zone whose offset stays under a day and does not move
    by 15 h 30 min between the two local times, both strings are read in
    the `YYYY-MM-DD HH:mm` layout; the frontmatter with the later
    modified time is tracked, the one with the later formatted time is
    not. *)
Theorem readme_example (paths : gset string) :
  (forall t, Z.abs (JsDate.LocalTZA host t) <= JsDate.msPerDay) ->
  Z.abs (JsDate.LocalTZA host t_0115_0930 - JsDate.LocalTZA host t_0114_1800)
    < 55800000 ->
  toMs host (VString "2026-01-15 09:30") = Some (JsDate.UTC host t_0115_0930) /\
  toMs host (VString "2026-01-14 18:00") = Some (JsDate.UTC host t_0114_1800) /\
  path note ∈ checkFile host DEFAULT_SETTINGS (cacheOf (Some stale)) note paths /\
  path note ∉ checkFile host DEFAULT_SETTINGS (cacheOf (Some fresh)) note paths.
Proof.
  intros Hday Hshift.
  assert (H1 : toMs host (VString "2026-01-15 09:30")
               = Some (JsDate.UTC host t_0115_0930)).
  { apply toMs_local; [reflexivity | reflexivity |].
    unfold JsDate.UTC. specialize (Hday t_0115_0930).
    unfold JsDate.msPerDay, t_0115_0930 in *. lia. }
  assert (H2 : toMs host (VString "2026-01-14 18:00")
               = Some (JsDate.UTC host t_0114_1800)).
  { apply toMs_local; [reflexivity | reflexivity |].
    unfold JsDate.UTC. specialize (Hday t_0114_1800).
    unfold JsDate.msPerDay, t_0114_1800 in *. lia. }
  split_and!; [done | done | |].
  - apply checkFile_self.
    rewrite (verdict_frontmatter _ _ _ _ stale);
      [|reflexivity | apply cacheOf_note].
    change (formattedField DEFAULT_SETTINGS) with "formatted".
    change (modifiedField DEFAULT_SETTINGS) with "modified".
    destruct stale_fields as [-> ->]. rewrite H1, H2. simpl.
    apply Z.ltb_lt. unfold JsDate.UTC, t_0115_0930, t_0114_1800 in *. lia.
  - rewrite checkFile_self.
    rewrite (verdict_frontmatter _ _ _ _ fresh);
      [|reflexivity | apply cacheOf_note].
    change (formattedField DEFAULT_SETTINGS) with "formatted".
    change (modifiedField DEFAULT_SETTINGS) with "modified".
    destruct fresh_fields as [-> ->]. rewrite H1, H2. simpl.
    apply not_true_iff_false, Z.ltb_ge.
    unfold JsDate.UTC, t_0115_0930, t_0114_1800 in *. lia.
Qed.

End Timestamps.

(** ** The tracked set across events *)

Section Tracked.
Import FormatCheck.
Context (host : JsDate.Host).

Lemma schedule_frame (w : World) :
  markdownFiles (scheduleApplyDecorations w) = markdownFiles w /\
  metadataCache (scheduleApplyDecorations w) = metadataCache w /\
  settings (scheduleApplyDecorations w) = settings w /\
  needsFormatPaths (scheduleApplyDecorations w) = needsFormatPaths w /\
  applyRuns (scheduleApplyDecorations w) = applyRuns w /\
  clock (scheduleApplyDecorations w) = clock w.
Proof.
  unfold scheduleApplyDecorations.
  destruct (debounceTimer w) as [id|]; [case_bool_decide|]; done.
Qed.

Lemma not_elem_of_removed (paths : gset string) p : p ∉ paths ∖ {[p]}.
Proof.
  intros Hin. apply elem_of_difference in Hin as [_ Hn].
  apply Hn. by apply elem_of_singleton.
Qed.

Lemma remove_untracked (paths : gset string) p :
  p ∉ paths -> paths ∖ {[p]} = paths.
Proof.
  intros Hp. apply set_eq. intros q.
  rewrite elem_of_difference, elem_of_singleton. split; [tauto|].
  intros Hq. split; [done | congruence].
Qed.

Lemma verdict_same_entry s (cache cache' : gmap string CachedMetadata) file :
  cache !! path file = cache' !! path file ->
  verdict host s cache file = verdict host s cache' file.
Proof. unfold verdict, getFrontmatter. by intros ->. Qed.

Lemma TFile_eta (f : TFile) : {| path := path f |} = f.
Proof. by destruct f. Qed.

Lemma TFile_path_inj (f g : TFile) : path f = path g -> f = g.
Proof. destruct f, g. simpl. by intros ->. Qed.

Lemma Sound_checkFile files s cache file paths :
  file ∈ files ->
  Sound host files s cache paths ->
  Sound host files s cache (checkFile host s cache file paths).
Proof.
  intros Hin HS p Hp. apply elem_of_checkFile in Hp as [[-> Hv] | [_ Hp]].
  - by rewrite TFile_eta.
  - by apply HS.
Qed.

Lemma Sound_foldl files s cache l paths :
  (forall f, f ∈ l -> f ∈ files) ->
  Sound host files s cache paths ->
  Sound host files s cache
    (foldl (fun acc file => checkFile host s cache file acc) paths l).
Proof.
  revert paths. induction l as [|f l IH]; intros paths Hl HS; [done|].
  simpl. apply IH.
  - intros g Hg. apply Hl. by right.
  - apply Sound_checkFile; [|done]. apply Hl. by left.
Qed.

Lemma Sound_scanAllFiles files s cache :
  Sound host files s cache (scanAllFiles host s cache files).
Proof.
  apply Sound_foldl; [done|]. intros p Hp. by apply not_elem_of_empty in Hp.
Qed.




Lemma TrackedUnder_schedule R w :
  TrackedUnder host R w -> TrackedUnder host R (scheduleApplyDecorations w).
Proof.
  unfold TrackedUnder.
  destruct (schedule_frame w) as (-> & -> & -> & -> & _). done.
Qed.

Lemma TrackedUnder_scan R w :
  (forall s, R s s) -> TrackedUnder host R (scanAllFilesW host w).
Proof.
  intros Hrefl p Hp.
  destruct (Sound_scanAllFiles (markdownFiles w) (settings w) (metadataCache w)
              p Hp) as [Hfile Hv].
  split; [done|]. exists (settings w). split; [apply Hrefl | done].
Qed.

(** A turn keeps every tracked path listed and with a positive verdict
    under related settings, provided the relation is reflexive and
    carries over from the settings before the turn to those after. *)
Lemma TrackedUnder_step (R : FormatCheckSettings -> FormatCheckSettings -> Prop)
    w w' :
  (forall s, R s s) ->
  (forall s, R s (settings w) -> R s (settings w')) ->
  step host w w' -> TrackedUnder host R w -> TrackedUnder host R w'.
Proof.
  intros Hrefl Hcarry Hstep HS. destruct Hstep as
    [w | w | w f Hfresh | w f c Hf | w f | w p | w f oldPath c Hold Hnew
     | w p oldPath | w s | w | w d Hd | w id due Hin Hdue].
  - by apply (TrackedUnder_scan R w).
  - by apply TrackedUnder_schedule.
  - intros p Hp. destruct (HS p Hp) as [Hfile Hv]. split; [by right | done].
  - apply TrackedUnder_schedule. unfold TrackedUnder, checkFileW, hostIndex.
    simpl. intros p Hp.
    apply elem_of_checkFile in Hp as [[-> Hv] | [Hne Hp]].
    + rewrite TFile_eta. split; [done|]. exists (settings w). by split.
    + destruct (HS p Hp) as [Hfile (s & HR & Hv)]. split; [done|].
      exists s. split; [done|]. rewrite <- Hv. apply verdict_same_entry.
      simpl. by rewrite lookup_insert_ne.
  - unfold TrackedUnder, onDelete, hostRemove. simpl. intros p Hp.
    apply elem_of_difference in Hp as [Hp Hne].
    rewrite elem_of_singleton in Hne.
    destruct (HS p Hp) as [Hfile (s & HR & Hv)]. split.
    + apply list_elem_of_filter. split; [|done].
      intros Heq. apply Hne. by rewrite <- Heq.
    + exists s. split; [done|]. rewrite <- Hv. apply verdict_same_entry.
      simpl. by rewrite lookup_delete_ne.
  - done.
  - apply TrackedUnder_schedule.
    assert (Hkeep : forall p, p ∈ needsFormatPaths w ∖ {[oldPath]} ->
              p <> path f ->
              {| path := p |} ∈ f :: filter (fun g => g ≠ {| path := oldPath |})
                                       (markdownFiles w) /\
              exists s, R s (settings w) /\
                verdict host s
                  (partial_alter (fun _ => c) (path f)
                     (delete oldPath (metadataCache w))) {| path := p |} = true).
    { intros p Hp Hpf. apply elem_of_difference in Hp as [Hp Hne].
      rewrite elem_of_singleton in Hne.
      destruct (HS p Hp) as [Hfile (s & HR & Hv)]. split.
      - right. apply list_elem_of_filter. split; [|done]. congruence.
      - exists s. split; [done|]. rewrite <- Hv. apply verdict_same_entry.
        simpl. rewrite lookup_partial_alter_ne by done.
        by rewrite lookup_delete_ne. }
    unfold TrackedUnder, hostMove. simpl. case_bool_decide as Htracked; simpl.
    + intros p Hp. apply elem_of_checkFile in Hp as [[-> Hv] | [Hne Hp]].
      * rewrite TFile_eta. split; [by left|]. exists (settings w). by split.
      * by apply Hkeep.
    + intros p Hp. apply Hkeep; [done|]. intros ->.
      apply elem_of_difference in Hp as [Hp _].
      destruct (HS _ Hp) as [Hfile _]. by rewrite TFile_eta in Hfile.
  - done.
  - intros p Hp. destruct (HS p Hp) as [Hfile (s0 & HR & Hv)].
    split; [done|]. exists s0. split; [by apply Hcarry | done].
  - by apply (TrackedUnder_scan R w).
  - done.
  - done.
Qed.






Lemma foldl_checkFile_tracks s cache l (paths : gset string) f :
  f ∈ l \/ path f ∈ paths ->
  verdict host s cache f = true ->
  path f ∈ foldl (fun acc file => checkFile host s cache file acc) paths l.
Proof.
  revert paths. induction l as [|g l IH]; intros paths Hf Hv.
  - destruct Hf as [Hf | Hf]; [by apply elem_of_nil in Hf | done].
  - simpl. apply IH; [|done].
    destruct Hf as [Hf | Hf].
    + apply elem_of_cons in Hf as [-> | Hf]; [|by left].
      right. by apply checkFile_self.
    + right. apply elem_of_checkFile.
      destruct (decide (path f = path g)) as [Heq | Hne].
      * left. apply TFile_path_inj in Heq. by subst g.
      * by right.
Qed.

Lemma scanAllFiles_tracks s cache files f :
  f ∈ files -> verdict host s cache f = true ->
  path f ∈ scanAllFiles host s cache files.
Proof. intros Hf Hv. apply foldl_checkFile_tracks; [by left | done]. Qed.

(** C10. After the rename handler has run for a file whose new path
    differs from the old one, the old path is not tracked; and when the
    old path was not tracked before, the tracked set is left exactly as
    it was, so the new path is not tracked unless it already was.  A
    later metadata-changed event for the file, or a full scan of a vault
    holding it, tracks the new path if the file needs formatting. *)
Theorem rename_handler_frame (w : World) (f : TFile) (oldPath : string) :
  (path f <> oldPath ->
     oldPath ∉ needsFormatPaths (onRename host (AFile f) oldPath w)) /\
  (oldPath ∉ needsFormatPaths w ->
     needsFormatPaths (onRename host (AFile f) oldPath w) = needsFormatPaths w) /\
  (forall w',
     verdict host (settings w') (metadataCache w') f = true ->
     path f ∈ needsFormatPaths (onChanged host f w') /\
     (f ∈ markdownFiles w' -> path f ∈ needsFormatPaths (scanAllFilesW host w'))).
Proof.
  split_and!.
  - intros Hne. unfold onRename.
    destruct (schedule_frame
      (if bool_decide (oldPath ∈ needsFormatPaths w)
       then checkFileW host f (with_paths (needsFormatPaths w ∖ {[oldPath]}) w)
       else with_paths (needsFormatPaths w ∖ {[oldPath]}) w))
      as (_ & _ & _ & -> & _).
    case_bool_decide; simpl.
    + rewrite elem_of_checkFile. intros [[Heq _] | [_ Hin]]; [congruence|].
      by apply not_elem_of_removed in Hin.
    + apply not_elem_of_removed.
  - intros Hp. unfold onRename.
    destruct (schedule_frame
      (if bool_decide (oldPath ∈ needsFormatPaths w)
       then checkFileW host f (with_paths (needsFormatPaths w ∖ {[oldPath]}) w)
       else with_paths (needsFormatPaths w ∖ {[oldPath]}) w))
      as (_ & _ & _ & -> & _).
    rewrite bool_decide_eq_false_2 by done. simpl.
    by apply remove_untracked.
  - intros w' Hv. split.
    + unfold onChanged.
      destruct (schedule_frame (checkFileW host f w')) as (_ & _ & _ & -> & _).
      simpl. by apply checkFile_self.
    + intros Hf. simpl. by apply scanAllFiles_tracks.
Qed.

End Tracked.

(** ** The debounce timer *)

Section Debounce.
Import FormatCheck.
Context (host : JsDate.Host).

Lemma filter_other_id (id due : Z) :
  filter (fun t : Z * Z => t.1 ≠ id) [(id, due)] = [].
Proof. rewrite filter_cons_False, filter_nil; [done|]. simpl. tauto. Qed.

(** What a call leaves behind, whatever was pending before. *)
Lemma schedule_shape (w : World) :
  TimerInv w ->
  timers (scheduleApplyDecorations w) =
    [(nextTimerId w, clock w + debounceDelay)] /\
  debounceTimer (scheduleApplyDecorations w) = Some (nextTimerId w) /\
  nextTimerId (scheduleApplyDecorations w) = nextTimerId w + 1.
Proof.
  intros [Hn [[Hd Ht] | (id & due & Hid & Hd & Ht)]];
    unfold scheduleApplyDecorations; rewrite Hd.
  - simpl. rewrite Ht. done.
  - rewrite bool_decide_eq_true_2 by lia.
    unfold clearTimeout. simpl. rewrite Ht, filter_other_id. done.
Qed.

Lemma TimerInv_schedule (w : World) :
  TimerInv w -> TimerInv (scheduleApplyDecorations w).
Proof.
  intros HI. destruct (schedule_shape w HI) as (Ht & Hd & Hn).
  destruct HI as [Hpos _]. split; [lia|]. right.
  exists (nextTimerId w), (clock w + debounceDelay). done.
Qed.

Lemma TimerInv_fire (w : World) id due :
  TimerInv w -> (id, due) ∈ timers w ->
  TimerInv (timerCallback (clearTimeout id w)) /\
  timers (timerCallback (clearTimeout id w)) = [] /\
  applyRuns (timerCallback (clearTimeout id w)) = S (applyRuns w).
Proof.
  intros [Hn [[_ Ht] | (id' & due' & Hid & Hd & Ht)]] Hin;
    rewrite Ht in Hin.
  - by apply elem_of_nil in Hin.
  - apply list_elem_of_singleton in Hin. injection Hin as -> ->.
    assert (Hc : timers (timerCallback (clearTimeout id' w)) = []).
    { unfold timerCallback, clearTimeout. simpl.
      by rewrite Ht, filter_other_id. }
    split_and!; [|done|done].
    split; [done|]. left. done.
Qed.

Lemma TimerInv_step w w' : step host w w' -> TimerInv w -> TimerInv w'.
Proof.
  intros Hstep HI. destruct Hstep as
    [w | w | w f Hfresh | w f c Hf | w f | w p | w f oldPath c Hold Hnew
     | w p oldPath | w s | w | w d Hd | w id due Hin Hdue];
    try exact HI; try (by apply TimerInv_schedule).
  - apply TimerInv_schedule. simpl. by case_bool_decide.
  - by apply (TimerInv_fire w id due).
Qed.

Lemma TimerInv_steps w w' : rtc (step host) w w' -> TimerInv w -> TimerInv w'.
Proof.
  induction 1 as [w | w1 w2 w3 Hstep _ IH]; [done|].
  intros HI. apply IH. by eapply TimerInv_step.
Qed.

Lemma TimerInv_reachable w : reachable host w -> TimerInv w.
Proof.
  intros (w0 & (_ & Hd & Ht & Hn) & Hrtc). apply (TimerInv_steps w0); [done|].
  split; [done|]. by left.
Qed.

(** Before the pending timer is due, letting time pass runs nothing. *)
Lemma advance_early (w : World) id due d :
  timers w = [(id, due)] -> clock w + d < due ->
  advance d w = with_clock (clock w + d) w.
Proof.
  intros Ht Hd. unfold advance, runDueTimers. simpl. rewrite Ht.
  rewrite filter_cons_False, filter_nil; [done|]. simpl. lia.
Qed.

(** Once it is due, the pending timer runs, once. *)
Lemma advance_due (w : World) id due d :
  timers w = [(id, due)] -> due <= clock w + d ->
  advance d w = timerCallback (clearTimeout id (with_clock (clock w + d) w)).
Proof.
  intros Ht Hd. unfold advance, runDueTimers. simpl. rewrite Ht.
  rewrite filter_cons_True, filter_nil; [done|]. simpl. lia.
Qed.

Lemma burst_shape (gaps : list Z) (w : World) :
  TimerInv w ->
  Forall (fun d => 0 <= d < debounceDelay) gaps ->
  TimerInv (burst gaps w) /\
  applyRuns (burst gaps w) = applyRuns w /\
  rtc (step host) w (burst gaps w) /\
  exists id, timers (burst gaps w) = [(id, clock (burst gaps w) + debounceDelay)].
Proof.
  intros HI Hgaps. revert w HI.
  induction Hgaps as [|d gaps Hd _ IH]; intros w HI; cbn [burst].
  - destruct (schedule_shape w HI) as (Ht & _).
    destruct (schedule_frame w) as (_ & _ & _ & _ & Hruns & Hclock).
    split_and!; [by apply TimerInv_schedule | done | | ].
    + apply rtc_once. apply step_layout_change.
    + exists (nextTimerId w). by rewrite Ht, Hclock.
  - set (w1 := scheduleApplyDecorations w).
    destruct (schedule_shape w HI) as (Ht & _).
    destruct (schedule_frame w) as (_ & _ & _ & _ & Hruns & Hclock).
    assert (HI1 : TimerInv w1) by by apply TimerInv_schedule.
    assert (Hadv : advance d w1 = with_clock (clock w1 + d) w1).
    { apply (advance_early w1 (nextTimerId w) (clock w + debounceDelay));
        [done|]. subst w1. rewrite Hclock. lia. }
    rewrite Hadv.
    destruct (IH (with_clock (clock w1 + d) w1)) as (HI' & Hr' & Hs' & Hid');
      [exact HI1|].
    split_and!; [done | | | done].
    + rewrite Hr'. simpl. done.
    + eapply rtc_l; [apply step_layout_change|].
      eapply rtc_l; [apply (step_tick host _ d); lia|]. done.
Qed.

(** C9. In every reachable state at most one debounce timer is pending.
    A burst of calls, each less than the delay after the one before,
    leaves exactly one timer pending and has run [applyDecorations]
    not at all; when the delay has then passed, it has run exactly
    once and no timer is pending. *)
Theorem debounce_single_run (w : World) :
  reachable host w ->
  (length (timers w) <= 1)%nat /\
  forall gaps, Forall (fun d => 0 <= d < debounceDelay) gaps ->
    reachable host (burst gaps w) /\
    length (timers (burst gaps w)) = 1%nat /\
    applyRuns (burst gaps w) = applyRuns w /\
    applyRuns (advance debounceDelay (burst gaps w)) = S (applyRuns w) /\
    timers (advance debounceDelay (burst gaps w)) = [].
Proof.
  intros Hr. pose proof (TimerInv_reachable w Hr) as HI. split.
  - destruct HI as [_ [[_ ->] | (id & due & _ & _ & ->)]]; simpl; lia.
  - intros gaps Hgaps.
    destruct (burst_shape gaps w HI Hgaps) as (HI' & Hruns & Hsteps & id & Ht).
    split_and!.
    + destruct Hr as (w0 & Hinit & Hrtc). exists w0. split; [done|].
      by etrans.
    + by rewrite Ht.
    + done.
    + rewrite (advance_due _ id _ _ Ht) by lia.
      destruct (TimerInv_fire (with_clock (clock (burst gaps w) + debounceDelay)
                                 (burst gaps w)) id
                  (clock (burst gaps w) + debounceDelay)) as (_ & _ & ->).
      * exact HI'.
      * simpl. rewrite Ht. by left.
      * simpl. by rewrite Hruns.
    + rewrite (advance_due _ id _ _ Ht) by lia.
      destruct (TimerInv_fire (with_clock (clock (burst gaps w) + debounceDelay)
                                 (burst gaps w)) id
                  (clock (burst gaps w) + debounceDelay)) as (_ & -> & _).
      * exact HI'.
      * simpl. rewrite Ht. by left.
      * done.
Qed.

End Debounce.

(** ** Settings loading *)

Section Settings.
Import FormatCheck.

(** C8. Whatever subset of the four fields is stored (or nothing at
    all), the loaded settings have all four fields, each equal to the
    stored value if there is one and to the default otherwise. *)
Theorem loadSettings_defaults (data : option PartialSettings) :
  dotColor_opt (loadSettings data) =
    Some (default (dotColor DEFAULT_SETTINGS) (data ≫= dotColor_opt)) /\
  includedFolders_opt (loadSettings data) =
    Some (default (includedFolders DEFAULT_SETTINGS)
                  (data ≫= includedFolders_opt)) /\
  formattedField_opt (loadSettings data) =
    Some (default (formattedField DEFAULT_SETTINGS)
                  (data ≫= formattedField_opt)) /\
  modifiedField_opt (loadSettings data) =
    Some (default (modifiedField DEFAULT_SETTINGS)
                  (data ≫= modifiedField_opt)) /\
  exists s : FormatCheckSettings, loadSettings data = asObject s.
Proof.
  split_and!;
    [..|
     exists {| dotColor :=
                default (dotColor DEFAULT_SETTINGS) (data ≫= dotColor_opt);
              includedFolders :=
                default (includedFolders DEFAULT_SETTINGS)
                        (data ≫= includedFolders_opt);
              formattedField :=
                default (formattedField DEFAULT_SETTINGS)
                        (data ≫= formattedField_opt);
              modifiedField :=
                default (modifiedField DEFAULT_SETTINGS)
                        (data ≫= modifiedField_opt) |}];
    destruct data as [[[c|] [l|] [f|] [m|]]|]; reflexivity.
Qed.

End Settings.

(** ** The statements at concrete inputs *)

Section Instances.
Import FormatCheck Examples MoreExamples.

Lemma utc_verdict_empty_frontmatter :
  verdict utc scoped (cacheOf (Some ∅)) note = true.
Proof. unfold verdict. rewrite cacheOf_note. reflexivity. Qed.

Lemma utc_toMs_unreadable : toMs utc (VString "yesterday") = None.
Proof. reflexivity. Qed.

Lemma utc_verdict_unreadable :
  verdict utc scoped (cacheOf (Some unreadable)) note = true.
Proof. unfold verdict. rewrite cacheOf_note. reflexivity. Qed.

Lemma note_in_scope : isInScope scoped (path note) = true.
Proof. reflexivity. Qed.

Lemma elsewhere_out_of_scope : isInScope scoped (path elsewhere) = false.
Proof. reflexivity. Qed.

(** C1 fails as worded: a file in scope whose frontmatter lacks both
    fields is in a listed failure mode, and [checkFile] tracks it, so a
    marker is shown; the same happens with a formatted value that is
    no timestamp. *)
Lemma missing_formatted_is_marked :
  FailureMode utc scoped (cacheOf (Some ∅)) note /\
  ~ Unmarked (checkFile utc scoped (cacheOf (Some ∅)) note ∅) (path note) /\
  applyDecorations (checkFile utc scoped (cacheOf (Some ∅)) note ∅)
    [path note] = [path note] /\
  FailureMode utc scoped (cacheOf (Some unreadable)) note /\
  ~ Unmarked (checkFile utc scoped (cacheOf (Some unreadable)) note ∅)
      (path note).
Proof.
  assert (H1 : path note ∈ checkFile utc scoped (cacheOf (Some ∅)) note ∅)
    by apply checkFile_self, utc_verdict_empty_frontmatter.
  assert (H2 : path note ∈ checkFile utc scoped (cacheOf (Some unreadable)) note ∅)
    by apply checkFile_self, utc_verdict_unreadable.
  split_and!.
  - right. left. exists ∅, "formatted". rewrite cacheOf_note.
    split_and!; [done | by left | by left].
  - intros [Hn _]. by apply Hn.
  - unfold applyDecorations. rewrite filter_cons_True, filter_nil; done.
  - right. left. exists unreadable, "formatted". rewrite cacheOf_note.
    split_and!; [done | by left | right; reflexivity].
  - intros [Hn _]. by apply Hn.
Qed.

(** C3 fails as worded: a file in scope whose cache entry has no
    frontmatter has no formatted value, and [checkFile] does not track
    it; it even drops the path if it was tracked. *)
Lemma no_frontmatter_is_untracked :
  isInScope scoped (path note) = true /\
  getFrontmatter (cacheOf None) note = None /\
  (path note ∉ checkFile utc scoped (cacheOf None) note ∅) /\
  (path note ∉ checkFile utc scoped (cacheOf None) note {[path note]}).
Proof.
  split_and!; [reflexivity | apply cacheOf_note | |];
    rewrite checkFile_self, verdict_no_frontmatter;
    first [done | apply cacheOf_note].
Qed.

(** The case C10 points at: a file that would be tracked under its new
    path is not, after a rename from an untracked old path. *)
Example rename_skips_new_path :
  let w := with_cache {[ "notes/b.md" := {| frontmatter := Some stale |} ]}
             (with_files [renamed] (world0 None)) in
  verdict utc (settings w) (metadataCache w) renamed = true /\
  path renamed ∉ needsFormatPaths (onRename utc (AFile renamed) "notes/a.md" w).
Proof.
  split.
  - unfold verdict, getFrontmatter. simpl. rewrite lookup_singleton_eq.
    reflexivity.
  - simpl. rewrite bool_decide_eq_false_2 by apply not_elem_of_empty.
    simpl. intros Hin. apply elem_of_difference in Hin as [Hin _].
    by apply not_elem_of_empty in Hin.
Qed.

(** *** The theorems applied *)

Lemma checkFile_failure_modes_witness :
  Unmarked (checkFile utc scoped (cacheOf None) elsewhere ∅) (path elsewhere) /\
  Unmarked (checkFile utc scoped ∅ note ∅) (path note) /\
  Unmarked (checkFile utc scoped (cacheOf None) note ∅) (path note) /\
  Unmarked (checkFile utc scoped (cacheOf (Some formattedOnly)) note ∅)
           (path note) /\
  path note ∈ checkFile utc scoped (cacheOf (Some ∅)) note ∅.
Proof.
  split_and!.
  - apply (checkFile_failure_modes utc scoped (cacheOf None) elsewhere ∅).
    reflexivity.
  - apply (checkFile_failure_modes utc scoped ∅ note ∅).
    apply lookup_empty.
  - apply (proj1 (proj2 (proj2
             (checkFile_failure_modes utc scoped (cacheOf None) note ∅)))
             {| frontmatter := None |}).
    + apply lookup_singleton_eq.
    + reflexivity.
  - apply (proj1 (proj2 (proj2 (proj2
             (checkFile_failure_modes utc scoped
                (cacheOf (Some formattedOnly)) note ∅))))
             formattedOnly t_0114_1800).
    + apply cacheOf_note.
    + reflexivity.
    + reflexivity.
  - apply (proj2 (proj2 (proj2 (proj2
             (checkFile_failure_modes utc scoped (cacheOf (Some ∅)) note ∅))))
             ∅).
    + reflexivity.
    + apply cacheOf_note.
    + reflexivity.
Defined.

Lemma needsFormat_rule_witness :
  needsFormat (Some 1) (Some 2) = true /\
  needsFormat (Some 2) (Some 2) = false /\
  needsFormat (Some 2) None = false.
Proof.
  split_and!.
  - apply (proj1 (needsFormat_rule (Some 1) (Some 2))).
    right. exists 1, 2. split_and!; [reflexivity | reflexivity | lia].
  - apply (proj1 (proj2 (needsFormat_rule (Some 2) (Some 2))) 2 2);
      [reflexivity | reflexivity | lia].
  - apply (proj2 (proj2 (needsFormat_rule (Some 2) None)) 2); reflexivity.
Defined.

Lemma checkFile_no_formatted_value_witness :
  path note ∈ checkFile utc scoped (cacheOf (Some ∅)) note ∅.
Proof.
  apply (proj1 (checkFile_no_formatted_value utc scoped (cacheOf (Some ∅))
                  note ∅ note_in_scope) ∅).
  - apply cacheOf_note.
  - apply lookup_empty.
Defined.




Lemma checkFile_out_of_scope_witness :
  path elsewhere ∉
    checkFile utc scoped (cacheOf (Some stale)) elsewhere {[path elsewhere]}.
Proof.
  apply (checkFile_out_of_scope utc scoped).
  - discriminate.
  - intros folder Hin [rest Hrest].
    apply list_elem_of_singleton in Hin. subst folder.
    destruct Hrest as [[_ H] | [_ H]]; discriminate H.
Defined.

Lemma readme_example_witness :
  path note ∈ checkFile utc DEFAULT_SETTINGS (cacheOf (Some stale)) note ∅ /\
  path note ∉ checkFile utc DEFAULT_SETTINGS (cacheOf (Some fresh)) note ∅.
Proof.
  apply (readme_example utc ∅).
  - intros t. simpl. unfold JsDate.msPerDay. lia.
  - simpl. lia.
Defined.

Lemma checkFile_swapped_fields_witness :
  (path note ∈ checkFile utc scoped (cacheOf (Some stale)) note ∅) /\
  (path note ∉ checkFile utc (swapFields scoped) (cacheOf (Some stale)) note ∅).
Proof.
  destruct (checkFile_swapped_fields utc scoped (cacheOf (Some stale)) note ∅
              stale note_in_scope (cacheOf_note (Some stale)))
    as (Hplain & Hswapped & Hflip & _).
  assert (Hin : path note ∈ checkFile utc scoped (cacheOf (Some stale)) note ∅).
  { apply Hplain. right. exists t_0114_1800, t_0115_0930.
    split_and!; [reflexivity | reflexivity |].
    unfold t_0114_1800, t_0115_0930. lia. }
  split; [exact Hin|].
  intros Hsw.
  apply (Hflip t_0114_1800 t_0115_0930) in Hsw;
    [by apply Hsw | reflexivity | reflexivity |].
  unfold t_0114_1800, t_0115_0930. lia.
Defined.

Lemma debounce_single_run_witness :
  applyRuns (advance debounceDelay (burst [10; 20] (world0 None))) = 1%nat /\
  timers (advance debounceDelay (burst [10; 20] (world0 None))) = [].
Proof.
  assert (Hr : reachable utc (world0 None)).
  { exists (world0 None). split; [|apply rtc_refl].
    unfold initial. simpl. split_and!; [reflexivity.. | lia]. }
  assert (Hgaps : Forall (fun d => 0 <= d < debounceDelay) [10; 20]).
  { unfold debounceDelay. repeat constructor; lia. }
  destruct (proj2 (debounce_single_run utc (world0 None) Hr) [10; 20] Hgaps)
    as (_ & _ & _ & Hruns & Htimers).
  split; [exact Hruns | exact Htimers].
Defined.

Lemma rename_handler_frame_witness :
  ("notes/a.md" ∉
     needsFormatPaths (onRename utc (AFile renamed) "notes/a.md"
                         (world0 (Some stale)))) /\
  needsFormatPaths (onRename utc (AFile renamed) "notes/a.md"
                      (world0 (Some stale))) = ∅ /\
  path note ∈ needsFormatPaths (scanAllFilesW utc (world0 (Some stale))).
Proof.
  destruct (rename_handler_frame utc (world0 (Some stale)) renamed "notes/a.md")
    as (Hold & Hframe & _).
  destruct (rename_handler_frame utc (world0 (Some stale)) note "notes/a.md")
    as (_ & _ & Hlater).
  split_and!.
  - apply Hold. discriminate.
  - apply Hframe. apply not_elem_of_empty.
  - apply (Hlater (world0 (Some stale))).
    + unfold verdict. simpl. rewrite cacheOf_note. reflexivity.
    + by left.
Defined.

End Instances.

(** ** Trimming *)

Section TrimFacts.
Import JsString JsText FormatCheck Exactness.

Lemma trimEnd_cons (c : ascii) (r : string) :
  trimEnd (String c r) =
  match trimEnd r with
  | EmptyString => if isWhiteSpace c then EmptyString else String c EmptyString
  | String a r' => String c (String a r')
  end.
Proof. reflexivity. Qed.

Lemma trimStart_clean (s : string) : startsClean (trimStart s).
Proof.
  induction s as [|c s IH]; simpl; [done|].
  destruct (isWhiteSpace c) eqn:W; [done|]. simpl. done.
Qed.

Lemma trimStart_id (s : string) : startsClean s -> trimStart s = s.
Proof. destruct s as [|c s]; simpl; [done|]. by intros ->. Qed.

Lemma trimEnd_fix (s : string) : trimEnd (trimEnd s) = trimEnd s.
Proof.
  induction s as [|c s IH]; [done|].
  rewrite trimEnd_cons. destruct (trimEnd s) as [|a r] eqn:E.
  - destruct (isWhiteSpace c) eqn:W; [done|].
    rewrite trimEnd_cons. simpl. by rewrite W.
  - rewrite trimEnd_cons, IH. done.
Qed.

Lemma trimEnd_clean (s : string) : startsClean s -> startsClean (trimEnd s).
Proof.
  destruct s as [|c s]; [done|]. simpl. intros W.
  destruct (trimEnd s); [by rewrite W | done].
Qed.

Lemma trim_idem (s : string) : trim (trim s) = trim s.
Proof.
  unfold trim.
  rewrite (trimStart_id (trimEnd (trimStart s)))
    by apply trimEnd_clean, trimStart_clean.
  apply trimEnd_fix.
Qed.

Lemma trimStart_allWhiteSpace (s : string) :
  allWhiteSpace s = true -> trimStart s = EmptyString.
Proof.
  induction s as [|c s IH]; simpl; [done|].
  intros H. apply andb_true_iff in H as [-> H]. by apply IH.
Qed.

Lemma trim_allWhiteSpace (s : string) :
  allWhiteSpace s = true -> trim s = EmptyString.
Proof. intros H. unfold trim. by rewrite trimStart_allWhiteSpace. Qed.

Lemma truthy_length (s : string) :
  truthy s = (0 <? String.length s)%nat.
Proof. by destruct s. Qed.

(** X6. [toMs] reads a string through its trimmed form: white space
    around the value changes nothing, and a string of white space only
    is no timestamp. *)
Theorem toMs_ignores_surrounding_space (host : JsDate.Host) (s : string) :
  toMs host (VString s) = toMs host (VString (trim s)) /\
  (allWhiteSpace s = true -> toMs host (VString s) = None).
Proof.
  split.
  - unfold toMs. by rewrite trim_idem.
  - intros H. unfold toMs. by rewrite trim_allWhiteSpace.
Qed.

End TrimFacts.

(** ** The folder scope *)

Section ScopeFacts.
Import JsString JsText FormatCheck SettingsTab.

Lemma contains_app (c : ascii) (a b : string) :
  contains c (a ++ b)%string = contains c a || contains c b.
Proof.
  induction a as [|x a IH]; [reflexivity|].
  rewrite append_cons. simpl. by rewrite IH, orb_assoc.
Qed.

Lemma endsWith_separator_added (folder : string) :
  endsWith (if endsWith folder "/" then folder else (folder ++ "/")%string) "/"
  = true.
Proof.
  destruct (endsWith folder "/") eqn:E; [done|].
  apply endsWith_app. by exists folder.
Qed.

Lemma StartsInFolder_contains (p folder : string) :
  StartsInFolder p folder -> contains "/" p = true.
Proof.
  intros [rest [[[r ->] ->] | [_ ->]]]; rewrite !contains_app; simpl;
    by rewrite ?orb_true_r.
Qed.

(** X7. Writing a folder entry with or without its trailing separator
    makes no difference: the scope test gives the same answer once every
    entry has been given the separator it lacks. *)
Theorem isInScope_separator_optional (s : FormatCheckSettings) (p : string) :
  isInScope (withSeparators s) p = isInScope s p.
Proof.
  unfold isInScope, withSeparators. simpl. rewrite length_map.
  destruct (length (includedFolders s) =? 0)%nat; [done|].
  induction (includedFolders s) as [|folder l IH]; [done|].
  simpl. rewrite IH, endsWith_separator_added. done.
Qed.

(** X8. Once a folder list is configured, a file at the vault root (a
    path without separator) is out of scope, whatever the entries are. *)
Theorem root_file_out_of_scope (s : FormatCheckSettings) (p : string) :
  includedFolders s <> [] ->
  contains "/" p = false ->
  isInScope s p = false.
Proof.
  intros Hne Hp. apply not_true_is_false. intros Hs.
  apply isInScope_folder in Hs as (folder & _ & Hstart); [|done].
  apply StartsInFolder_contains in Hstart. congruence.
Qed.

(** X9. Adding entries to a non-empty folder list never takes a file
    out of scope, and neither the order of the entries nor repeating
    one matters. *)
Theorem isInScope_monotone (s s' : FormatCheckSettings) (p : string) :
  includedFolders s <> [] ->
  (forall folder, folder ∈ includedFolders s -> folder ∈ includedFolders s') ->
  isInScope s p = true ->
  isInScope s' p = true.
Proof.
  intros Hne Hsub Hs.
  apply isInScope_folder in Hs as (folder & Hin & Hstart); [|done].
  apply isInScope_folder.
  - intros Hnil. apply Hsub in Hin. rewrite Hnil in Hin.
    by apply elem_of_nil in Hin.
  - exists folder. split; [by apply Hsub | done].
Qed.

End ScopeFacts.

(** ** The settings tab *)

Section SettingsTabFacts.
Import JsString JsText FormatCheck SettingsTab.

Lemma splitAux_plain (sep : ascii) (a : string) :
  contains sep a = false -> splitAux sep a = (a, []).
Proof.
  induction a as [|c a IH]; simpl; [done|].
  intros H. apply orb_false_iff in H as [Hc Ha].
  rewrite (IH Ha), Hc. done.
Qed.

Lemma split_plain (sep : ascii) (a : string) :
  contains sep a = false -> split sep a = [a].
Proof. intros H. unfold split. by rewrite splitAux_plain. Qed.

Lemma split_app (sep : ascii) (a b : string) :
  contains sep a = false ->
  split sep (a ++ String sep b)%string = a :: split sep b.
Proof.
  unfold split. induction a as [|c a IH]; intros H.
  - change (EmptyString ++ String sep b)%string with (String sep b).
    simpl. destruct (splitAux sep b) as [h t]. by rewrite Ascii.eqb_refl.
  - rewrite append_cons. simpl in *.
    apply orb_false_iff in H as [Hc Ha]. specialize (IH Ha).
    destruct (splitAux sep (a ++ String sep b)%string) as [h t].
    destruct (splitAux sep b) as [h' t'].
    rewrite Hc. injection IH as -> ->. done.
Qed.

Lemma split_segments (sep : ascii) (s : string) :
  Forall (fun x => contains sep x = false) (split sep s).
Proof.
  unfold split. induction s as [|c s IH]; simpl.
  - by repeat constructor.
  - destruct (splitAux sep s) as [h t].
    apply Forall_cons in IH as [Hh Ht].
    destruct (Ascii.eqb c sep) eqn:E.
    + by repeat constructor.
    + constructor; [|done]. simpl. by rewrite E.
Qed.

Lemma split_allWhiteSpace (sep : ascii) (s : string) :
  allWhiteSpace s = true -> Forall (fun x => allWhiteSpace x = true) (split sep s).
Proof.
  unfold split. induction s as [|c s IH]; simpl.
  - intros _. by repeat constructor.
  - intros H. apply andb_true_iff in H as [Hc Hs]. specialize (IH Hs).
    destruct (splitAux sep s) as [h t].
    apply Forall_cons in IH as [Hh Ht].
    destruct (Ascii.eqb c sep).
    + by repeat constructor.
    + constructor; [|done]. simpl. by rewrite Hc.
Qed.

Lemma contains_trimStart (c : ascii) (s : string) :
  contains c s = false -> contains c (trimStart s) = false.
Proof.
  induction s as [|a s IH]; simpl; [done|].
  intros H. apply orb_false_iff in H as [Ha Hs].
  destruct (isWhiteSpace a); [by apply IH|]. simpl. by rewrite Ha, Hs.
Qed.

Lemma contains_trimEnd (c : ascii) (s : string) :
  contains c s = false -> contains c (trimEnd s) = false.
Proof.
  induction s as [|a s IH]; [done|].
  intros H. simpl in H. apply orb_false_iff in H as [Ha Hs].
  specialize (IH Hs). rewrite trimEnd_cons.
  destruct (trimEnd s) as [|b r].
  - destruct (isWhiteSpace a); [done|]. simpl. by rewrite Ha.
  - change (contains c (String a (String b r)))
      with (Ascii.eqb a c || contains c (String b r)).
    by rewrite Ha, IH.
Qed.

Lemma contains_trim (c : ascii) (s : string) :
  contains c s = false -> contains c (trim s) = false.
Proof. intros H. by apply contains_trimEnd, contains_trimStart. Qed.

(** A folder entry as the text area stores it. *)
Lemma elem_of_parseFolders (value f : string) :
  f ∈ parseFolders value <->
  (0 < String.length f)%nat /\
  exists line, f = trim line /\ line ∈ split newline value.
Proof.
  unfold parseFolders. rewrite list_elem_of_filter, list_elem_of_fmap.
  done.
Qed.

(** X10. Every entry the folder text area stores is non-empty, has no
    white space at either end and holds no line break. *)
Theorem parseFolders_entries_clean (value f : string) :
  f ∈ parseFolders value ->
  f <> EmptyString /\ trim f = f /\ contains newline f = false.
Proof.
  intros Hf. apply elem_of_parseFolders in Hf as (Hlen & line & -> & Hline).
  split_and!.
  - intros Heq. rewrite Heq in Hlen. simpl in Hlen. lia.
  - apply trim_idem.
  - apply contains_trim.
    pose proof (split_segments newline value) as Hall.
    rewrite Forall_forall in Hall. by apply Hall.
Qed.

End SettingsTabFacts.

Section SettingsTabRoundTrip.
Import JsString JsText FormatCheck SettingsTab.

Lemma join_cons2 (sep x y : string) (l : list string) :
  join sep (x :: y :: l) = (x ++ sep ++ join sep (y :: l))%string.
Proof. reflexivity. Qed.

Lemma split_join (sep : ascii) (l : list string) :
  Forall (fun x => contains sep x = false) l ->
  l <> [] ->
  split sep (join (String sep EmptyString) l) = l.
Proof.
  induction 1 as [|x rest Hx Hrest IH]; [done|]. intros _.
  destruct rest as [|y rest].
  - by apply split_plain.
  - rewrite join_cons2.
    change (String sep EmptyString ++ join (String sep EmptyString) (y :: rest))%string
      with (String sep (join (String sep EmptyString) (y :: rest))).
    rewrite split_app by done. by rewrite IH.
Qed.

Lemma parseFolders_clean (l : list string) :
  Forall CleanEntry l ->
  filter (fun f => (0 < String.length f)%nat) (map trim l) = l.
Proof.
  induction 1 as [|x l (Hne & Htrim & _) _ IH]; [done|].
  simpl. rewrite Htrim, filter_cons_True, IH; [done|].
  destruct x; [done | simpl; lia].
Qed.

(** X11. The folder text area round-trips: parsing the text shown for a
    list of clean entries gives the list back, and so does parsing the
    text shown for whatever an earlier edit stored. *)
Theorem folders_text_round_trip (s : FormatCheckSettings) :
  (Forall CleanEntry (includedFolders s) ->
     parseFolders (foldersText s) = includedFolders s) /\
  (forall value,
     parseFolders (foldersText (setIncludedFolders value s)) = parseFolders value).
Proof.
  assert (Hrt : forall l, Forall CleanEntry l ->
            parseFolders (join (String newline EmptyString) l) = l).
  { intros l Hl. unfold parseFolders. destruct l as [|x l]; [reflexivity|].
    rewrite split_join; [by apply parseFolders_clean | | done].
    eapply Forall_impl; [exact Hl|]. by intros f (_ & _ & Hf). }
  split.
  - apply Hrt.
  - intros value. unfold foldersText. simpl. apply Hrt.
    apply Forall_forall. intros f Hf.
    apply elem_of_parseFolders in Hf as (Hlen & line & -> & Hline).
    split_and!.
    + intros Heq. rewrite Heq in Hlen. simpl in Hlen. lia.
    + apply trim_idem.
    + apply contains_trim.
      pose proof (split_segments newline value) as Hall.
      rewrite Forall_forall in Hall. by apply Hall.
Qed.

(** X12. A folder text of blanks and line breaks only stores the empty
    list, under which every path is in scope. *)
Theorem blank_folders_text_means_all_files (value : string)
    (s : FormatCheckSettings) (p : string) :
  allWhiteSpace value = true ->
  parseFolders value = [] /\ isInScope (setIncludedFolders value s) p = true.
Proof.
  intros Hws.
  assert (Hnil : parseFolders value = []).
  { unfold parseFolders.
    pose proof (split_allWhiteSpace newline value Hws) as Hall.
    induction Hall as [|x l Hx _ IH]; [done|].
    simpl. rewrite (trim_allWhiteSpace x Hx), filter_cons_False; [done|].
    simpl. lia. }
  split; [done|]. apply isInScope_empty. simpl. done.
Qed.

(** X13. Whatever is typed into a field-name input, the stored name is
    not empty and has no white space at either end; blank input stores
    the default name; and typing the stored name again changes nothing. *)
Theorem field_name_never_empty (value : string) (s : FormatCheckSettings) :
  formattedField (setFormattedField value s) <> EmptyString /\
  modifiedField (setModifiedField value s) <> EmptyString /\
  trim (formattedField (setFormattedField value s))
    = formattedField (setFormattedField value s) /\
  trim (modifiedField (setModifiedField value s))
    = modifiedField (setModifiedField value s) /\
  (allWhiteSpace value = true ->
     formattedField (setFormattedField value s) = formattedField DEFAULT_SETTINGS /\
     modifiedField (setModifiedField value s) = modifiedField DEFAULT_SETTINGS) /\
  setFormattedField (formattedField (setFormattedField value s))
                    (setFormattedField value s) = setFormattedField value s /\
  setModifiedField (modifiedField (setModifiedField value s))
                   (setModifiedField value s) = setModifiedField value s.
Proof.
  assert (Hname : forall d, d <> EmptyString -> trim d = d ->
            fieldName value d <> EmptyString /\
            trim (fieldName value d) = fieldName value d /\
            fieldName (fieldName value d) d = fieldName value d).
  { intros d Hd Htrim. unfold fieldName.
    destruct (trim value) as [|c r] eqn:E; simpl.
    - split_and!; [done | done |]. rewrite Htrim. by destruct d.
    - rewrite <- E, trim_idem, E. done. }
  destruct (Hname (formattedField DEFAULT_SETTINGS)) as (F1 & F2 & F3);
    [done | reflexivity |].
  destruct (Hname (modifiedField DEFAULT_SETTINGS)) as (M1 & M2 & M3);
    [done | reflexivity |].
  split_and!; try done.
  - intros Hws. unfold setFormattedField, setModifiedField, fieldName. simpl.
    by rewrite (trim_allWhiteSpace value Hws).
  - unfold setFormattedField.
    cbn [dotColor includedFolders formattedField modifiedField].
    by rewrite F3.
  - unfold setModifiedField.
    cbn [dotColor includedFolders formattedField modifiedField].
    by rewrite M3.
Qed.

End SettingsTabRoundTrip.

(** ** The tracked set is exact after a scan and stays exact *)

Section ExactFacts.
Import FormatCheck Exactness.
Context (host : JsDate.Host).

Lemma Exact_scanAllFiles files s cache :
  Exact host files s cache (scanAllFiles host s cache files).
Proof.
  intros p. split.
  - intros Hp. destruct (Sound_scanAllFiles host files s cache p Hp) as [Hf Hv].
    by exists {| path := p |}.
  - intros (f & Hf & <- & Hv). by apply scanAllFiles_tracks.
Qed.

Lemma ExactW_schedule w :
  ExactW host w -> ExactW host (scheduleApplyDecorations w).
Proof.
  unfold ExactW. destruct (schedule_frame w) as (-> & -> & -> & -> & _). done.
Qed.

(** X1. After the layout-ready callback, after [saveSettings], and so
    after every [onChange] of the settings tab, the tracked set holds
    exactly the paths of the vault's Markdown files that are in scope,
    have frontmatter and need formatting; what was tracked before does
    not matter. *)
Theorem scan_makes_tracked_set_exact (w : World) :
  ExactW host (onLayoutReady host w) /\
  ExactW host (saveSettings host w) /\
  (forall assign, ExactW host (SettingsTab.onChange host assign w)).
Proof.
  split_and!; [| |intros assign]; apply Exact_scanAllFiles.
Qed.

(** X2. The result of a full scan depends on which files the vault
    lists, not on the order of the list or on a file being listed
    twice. *)
Theorem scanAllFiles_order_irrelevant s cache (files files' : list TFile) :
  (forall f, f ∈ files <-> f ∈ files') ->
  scanAllFiles host s cache files = scanAllFiles host s cache files'.
Proof.
  intros Hsame. apply set_eq. intros p.
  rewrite (Exact_scanAllFiles files s cache p).
  rewrite (Exact_scanAllFiles files' s cache p).
  split; intros (f & Hf & Hp & Hv); exists f; (split; [by apply Hsame | done]).
Qed.

(** X3. Checking a file twice is the same as checking it once, and
    checks of two files can be made in either order. *)
Theorem checkFile_idempotent_commutes s cache (f g : TFile) (paths : gset string) :
  checkFile host s cache f (checkFile host s cache f paths)
    = checkFile host s cache f paths /\
  checkFile host s cache f (checkFile host s cache g paths)
    = checkFile host s cache g (checkFile host s cache f paths).
Proof.
  split.
  - apply set_eq. intros q. rewrite !elem_of_checkFile. intuition congruence.
  - destruct (decide (f = g)) as [-> | Hne]; [done|].
    assert (Hp : path f <> path g).
    { intros Heq. by apply TFile_path_inj in Heq. }
    apply set_eq. intros q. rewrite !elem_of_checkFile.
    intuition congruence.
Qed.

(** X4. The incremental handlers keep the tracked set exact: if it is
    exact before the cache entry of a vault file changes, or before a
    file is deleted, it is exact after the handler has run. *)
Theorem changed_and_delete_keep_exact (w : World) (f : TFile) :
  ExactW host w ->
  (forall c, f ∈ markdownFiles w ->
     ExactW host (onChanged host f (hostIndex f c w))) /\
  ExactW host (onDelete (AFile f) (hostRemove f w)).
Proof.
  intros HE. split.
  - intros c Hf. apply ExactW_schedule.
    unfold ExactW, checkFileW, hostIndex. simpl. intros p.
    rewrite elem_of_checkFile. split.
    + intros [[-> Hv] | [Hne Hp]].
      * by exists f.
      * apply HE in Hp as (g & Hg & <- & Hv). exists g.
        split_and!; [done | done |]. rewrite <- Hv.
        apply verdict_same_entry. simpl. by rewrite lookup_insert_ne.
    + intros (g & Hg & <- & Hv).
      destruct (decide (path g = path f)) as [Heq | Hne].
      * left. apply TFile_path_inj in Heq. by subst g.
      * right. split; [done|]. apply HE. exists g.
        split_and!; [done | done |]. rewrite <- Hv.
        apply verdict_same_entry. simpl. by rewrite lookup_insert_ne.
  - unfold ExactW, onDelete, hostRemove. simpl. intros p.
    rewrite elem_of_difference, elem_of_singleton. split.
    + intros [Hp Hne]. apply HE in Hp as (g & Hg & <- & Hv). exists g.
      split_and!; [|done|].
      * apply list_elem_of_filter. split; [congruence | done].
      * rewrite <- Hv. apply verdict_same_entry. simpl.
        by rewrite lookup_delete_ne.
    + intros (g & Hg & <- & Hv). apply list_elem_of_filter in Hg as [Hgf Hg].
      assert (Hne : path g <> path f).
      { intros Heq. by apply TFile_path_inj in Heq. }
      split; [|done]. apply HE. exists g. split_and!; [done | done |].
      rewrite <- Hv. apply verdict_same_entry. simpl.
      by rewrite lookup_delete_ne.
Qed.

Lemma onRename_frame (f : TFile) (oldPath : string) (w : World) :
  markdownFiles (onRename host (AFile f) oldPath w) = markdownFiles w /\
  settings (onRename host (AFile f) oldPath w) = settings w /\
  metadataCache (onRename host (AFile f) oldPath w) = metadataCache w.
Proof.
  unfold onRename.
  destruct (schedule_frame
    (if bool_decide (oldPath ∈ needsFormatPaths w)
     then checkFileW host f (with_paths (needsFormatPaths w ∖ {[oldPath]}) w)
     else with_paths (needsFormatPaths w ∖ {[oldPath]}) w))
    as (-> & -> & -> & _).
  case_bool_decide; done.
Qed.

(** X5. A rename keeps an exact tracked set exact precisely when the
    old path was tracked or the file does not need formatting under its
    new path; otherwise the new path is the one path missing. *)
Theorem rename_keeps_exact_iff (w : World) (f : TFile) (oldPath : string)
    (c : option CachedMetadata) :
  ExactW host w ->
  {| path := oldPath |} ∈ markdownFiles w ->
  f ∉ markdownFiles w ->
  let w' := hostMove oldPath f c w in
  ExactW host (onRename host (AFile f) oldPath w') <->
  (oldPath ∈ needsFormatPaths w \/
   verdict host (settings w') (metadataCache w') f = false).
Proof.
  intros HE Hold Hnew w'.
  assert (Hfo : path f <> oldPath).
  { intros Heq. apply Hnew. by rewrite <- Heq, TFile_eta in Hold. }
  assert (Hother : forall g, g ∈ markdownFiles w -> path g <> oldPath ->
            g ∈ markdownFiles w' /\
            verdict host (settings w') (metadataCache w') g
              = verdict host (settings w) (metadataCache w) g).
  { intros g Hg Hgo. split.
    - right. apply list_elem_of_filter. split; [|done].
      intros Heq. apply Hgo. by rewrite Heq.
    - apply verdict_same_entry. subst w'. unfold hostMove. simpl.
      rewrite lookup_partial_alter_ne, lookup_delete_ne; [done | done |].
      intros Heq. apply TFile_path_inj in Heq. by subst g. }
  assert (Hback : forall g, g ∈ markdownFiles w' -> g <> f ->
            g ∈ markdownFiles w /\ path g <> oldPath).
  { intros g Hg Hgf. apply elem_of_cons in Hg as [-> | Hg]; [done|].
    apply list_elem_of_filter in Hg as [Hgo Hg]. split; [done|].
    intros Heq. apply Hgo. by apply TFile_path_inj. }
  assert (Hset : needsFormatPaths (onRename host (AFile f) oldPath w') =
            if bool_decide (oldPath ∈ needsFormatPaths w)
            then checkFile host (settings w') (metadataCache w') f
                   (needsFormatPaths w ∖ {[oldPath]})
            else needsFormatPaths w ∖ {[oldPath]}).
  { unfold onRename.
    destruct (schedule_frame
      (if bool_decide (oldPath ∈ needsFormatPaths w')
       then checkFileW host f (with_paths (needsFormatPaths w' ∖ {[oldPath]}) w')
       else with_paths (needsFormatPaths w' ∖ {[oldPath]}) w'))
      as (_ & _ & _ & -> & _).
    subst w'. simpl. by case_bool_decide. }
  assert (Hkept : forall p, p <> path f ->
            (p ∈ needsFormatPaths w ∖ {[oldPath]} <->
             exists g, g ∈ markdownFiles w' /\ path g = p /\
               verdict host (settings w') (metadataCache w') g = true)).
  { intros p Hpf. rewrite elem_of_difference, elem_of_singleton. split.
    - intros [Hp Hpo]. apply HE in Hp as (g & Hg & <- & Hv).
      destruct (Hother g Hg Hpo) as [Hg' Hv']. exists g.
      split_and!; [done | done | congruence].
    - intros (g & Hg & <- & Hv).
      destruct (Hback g Hg) as [Hg' Hgo]; [congruence|].
      split; [|done]. apply HE. exists g. split_and!; [done | done |].
      destruct (Hother g Hg' Hgo) as [_ Hv']. congruence. }
  assert (Hfresh : path f ∉ needsFormatPaths w).
  { intros Hp. apply HE in Hp as (g & Hg & Heq & _).
    apply TFile_path_inj in Heq. by subst g. }
  split.
  - intros HE'. destruct (decide (oldPath ∈ needsFormatPaths w)) as [|Hno];
      [by left|]. right. apply not_true_is_false. intros Hv.
    assert (Hin : path f ∈ needsFormatPaths (onRename host (AFile f) oldPath w')).
    { apply HE'. destruct (onRename_frame f oldPath w') as (-> & -> & ->).
      exists f. split_and!; [by left | done | done]. }
    rewrite Hset, bool_decide_eq_false_2 in Hin by done.
    apply elem_of_difference in Hin as [Hin _]. by apply Hfresh.
  - intros Hcase. unfold ExactW.
    pose proof (onRename_frame f oldPath w') as Hframe.
    destruct Hframe as (-> & -> & ->). rewrite Hset. intros p.
    destruct (decide (p = path f)) as [-> | Hpf].
    + case_bool_decide as Htracked.
      * rewrite checkFile_self. split.
        -- intros Hv. exists f. split_and!; [by left | done | done].
        -- intros (g & _ & Heq & Hv). apply TFile_path_inj in Heq. by subst g.
      * destruct Hcase as [|Hv]; [done|]. split.
        -- intros Hp. apply elem_of_difference in Hp as [Hp _].
           by apply Hfresh in Hp.
        -- intros (g & _ & Heq & Hv'). apply TFile_path_inj in Heq. subst g.
           congruence.
    + rewrite <- (Hkept p Hpf). case_bool_decide.
      * rewrite elem_of_checkFile. intuition congruence.
      * done.
Qed.

End ExactFacts.

(** ** Dots in the rendered tree *)

Section DecorationFacts.
Import FormatCheck Decoration.

Lemma applyDecorationsDom_refresh (paths : gset string) (dom : list NavTitle) :
  applyDecorationsDom paths dom = map (refresh paths) dom.
Proof.
  unfold applyDecorationsDom, removeDots. rewrite map_map. done.
Qed.

Lemma refresh_dataPath paths t : dataPath (refresh paths t) = dataPath t.
Proof. unfold refresh. by destruct (wanted paths _). Qed.

Lemma wanted_dataPath paths (t t' : NavTitle) :
  dataPath t = dataPath t' -> wanted paths t = wanted paths t'.
Proof. unfold wanted. by intros ->. Qed.

Lemma refresh_dots paths t :
  dots (refresh paths t) = if wanted paths t then 1%nat else 0%nat.
Proof.
  unfold refresh.
  rewrite (wanted_dataPath paths {| dataPath := dataPath t; dots := 0 |} t)
    by done.
  by destruct (wanted paths t).
Qed.

Lemma NavTitle_eq (t t' : NavTitle) :
  dataPath t = dataPath t' -> dots t = dots t' -> t = t'.
Proof. destruct t, t'. simpl. by intros -> ->. Qed.

Lemma refresh_idem paths t : refresh paths (refresh paths t) = refresh paths t.
Proof.
  apply NavTitle_eq.
  - by rewrite !refresh_dataPath.
  - rewrite !refresh_dots.
    by rewrite (wanted_dataPath paths (refresh paths t) t)
      by apply refresh_dataPath.
Qed.

Lemma omap_cons_unfold {A B} (f : A -> option B) (x : A) (l : list A) :
  omap f (x :: l) =
  match f x with Some y => y :: omap f l | None => omap f l end.
Proof. reflexivity. Qed.

Lemma dotted_refresh paths (dom : list NavTitle) :
  dotted (map (refresh paths) dom) = applyDecorations paths (omap dataPath dom).
Proof.
  unfold dotted, applyDecorations.
  induction dom as [|t dom IH]; [done|].
  rewrite map_cons, !omap_cons_unfold, IH, refresh_dots, refresh_dataPath.
  unfold wanted. destruct (dataPath t) as [p|] eqn:Hp.
  - destruct (JsString.truthy p) eqn:Htr; simpl.
    + case_bool_decide as Hin; simpl.
      * by rewrite filter_cons_True.
      * rewrite filter_cons_False by tauto. done.
    + rewrite filter_cons_False; [done|]. intros [? _]. congruence.
  - done.
Qed.

(** X14. [applyDecorations] leaves every title with exactly one dot if
    its path is non-empty and tracked and with none otherwise, however
    many dots it had; it changes nothing else, running it again changes
    nothing, and the dotted paths are the rendered paths that are
    tracked. *)
Theorem applyDecorations_sets_dots (paths : gset string) (dom : list NavTitle) :
  map dataPath (applyDecorationsDom paths dom) = map dataPath dom /\
  (forall t, t ∈ applyDecorationsDom paths dom ->
     dots t = if wanted paths t then 1%nat else 0%nat) /\
  applyDecorationsDom paths (applyDecorationsDom paths dom)
    = applyDecorationsDom paths dom /\
  dotted (applyDecorationsDom paths dom)
    = applyDecorations paths (omap dataPath dom).
Proof.
  rewrite !applyDecorationsDom_refresh. split_and!.
  - rewrite map_map. apply map_ext. intros t. apply refresh_dataPath.
  - intros t Ht. apply list_elem_of_fmap in Ht as (t0 & -> & _).
    rewrite refresh_dots.
    by rewrite (wanted_dataPath paths (refresh paths t0) t0)
      by apply refresh_dataPath.
  - rewrite map_map. apply map_ext. intros t. apply refresh_idem.
  - apply dotted_refresh.
Qed.

End DecorationFacts.

(** ** The mutation observer *)

Section ObserverFacts.
Import FormatCheck Decoration.

Lemma decorate_dataPath paths t : dataPath (decorate paths t) = dataPath t.
Proof. unfold decorate. by destruct (wanted paths t && (dots t =? 0)%nat). Qed.

Lemma decorate_idem paths t : decorate paths (decorate paths t) = decorate paths t.
Proof.
  unfold decorate at 2.
  destruct (wanted paths t && (dots t =? 0)%nat) eqn:E;
    [|by unfold decorate; rewrite E].
  unfold decorate.
  change (dots (createSpan t) =? 0)%nat with false.
  by rewrite andb_false_r, E.
Qed.

Lemma onMutations_lookup paths (added : list nat) (dom : list NavTitle) (i : nat) :
  onMutations paths added dom !! i =
  (fun t => if bool_decide (i ∈ added) then decorate paths t else t) <$> dom !! i.
Proof.
  unfold onMutations. revert dom.
  induction added as [|j added IH]; intros dom.
  - simpl. by destruct (dom !! i).
  - simpl. rewrite IH. destruct (decide (i = j)) as [-> | Hne].
    + rewrite list_lookup_alter_eq. destruct (dom !! j) as [t|]; simpl; [|done].
      rewrite (bool_decide_eq_true_2 (j ∈ j :: added)) by by left.
      case_bool_decide; [by rewrite decorate_idem | done].
    + rewrite list_lookup_alter_ne by done.
      destruct (dom !! i) as [t|]; simpl; [|done].
      f_equal. rewrite (bool_decide_ext (i ∈ j :: added) (i ∈ added)); [done|].
      rewrite elem_of_cons. tauto.
Qed.

Lemma onMutations_length paths added dom :
  length (onMutations paths added dom) = length dom.
Proof.
  unfold onMutations. revert dom.
  induction added as [|j added IH]; intros dom; [done|].
  simpl. by rewrite IH, length_alter.
Qed.

(** X15. The observer's callback gives a dot to a title exactly when the
    title is among the added ones, its path is non-empty and tracked,
    and it has no dot yet; every other title, and every path, is left as
    it was, so no title gets a second dot. *)
Theorem observer_adds_missing_dots_only (paths : gset string)
    (added : list nat) (dom : list NavTitle) (i : nat) (t : NavTitle) :
  dom !! i = Some t ->
  length (onMutations paths added dom) = length dom /\
  exists t', onMutations paths added dom !! i = Some t' /\
    dataPath t' = dataPath t /\
    dots t' =
      if bool_decide (i ∈ added) && wanted paths t && (dots t =? 0)%nat
      then 1%nat else dots t.
Proof.
  intros Hi. split; [apply onMutations_length|].
  rewrite onMutations_lookup, Hi. simpl. eexists. split; [done|].
  case_bool_decide; simpl; [|done]. split; [apply decorate_dataPath|].
  unfold decorate. destruct (wanted paths t); simpl; [|done].
  destruct (dots t =? 0)%nat eqn:E; simpl; [|done].
  apply Nat.eqb_eq in E. by rewrite E.
Qed.

Lemma refresh_fixed_decorate paths t :
  refresh paths t = t -> decorate paths t = t.
Proof.
  intros Hfix. unfold decorate.
  destruct (wanted paths t) eqn:Hw; simpl; [|done].
  assert (Hd : dots t = 1%nat).
  { rewrite <- Hfix at 1. by rewrite refresh_dots, Hw. }
  by rewrite Hd.
Qed.

Lemma fresh_decorate_refresh paths t :
  dots t = 0%nat -> decorate paths t = refresh paths t.
Proof.
  intros Hd. unfold decorate, refresh.
  replace {| dataPath := dataPath t; dots := 0 |} with t
    by (by apply NavTitle_eq).
  by rewrite Hd, andb_true_r.
Qed.

(** X16. The observer agrees with a full refresh: on a tree that
    [applyDecorations] has left, to which titles without dots have been
    added since, the callback for (at least) those titles gives the tree
    that [applyDecorations] would give; on the tree as left, it changes
    nothing. *)
Theorem observer_matches_full_refresh (paths : gset string)
    (old new : list NavTitle) (added : list nat) :
  WellDecorated paths old ->
  Forall (fun t => dots t = 0%nat) new ->
  (forall i, (length old <= i < length old + length new)%nat -> i ∈ added) ->
  onMutations paths added (old ++ new) = applyDecorationsDom paths (old ++ new).
Proof.
  intros Hold Hnew Hadded. unfold WellDecorated in Hold.
  rewrite applyDecorationsDom_refresh in *.
  apply list_eq. intros i.
  rewrite onMutations_lookup, list_lookup_fmap.
  destruct (decide (i < length old)%nat) as [Hlt | Hge].
  - rewrite lookup_app_l by done.
    destruct (old !! i) as [t|] eqn:Hi; simpl; [|done]. f_equal.
    assert (Hfix : refresh paths t = t).
    { assert (H : map (refresh paths) old !! i = Some (refresh paths t))
        by by rewrite list_lookup_fmap, Hi.
      rewrite Hold, Hi in H. by injection H. }
    rewrite Hfix. case_bool_decide; [by apply refresh_fixed_decorate | done].
  - rewrite lookup_app_r by lia.
    destruct (new !! (i - length old)%nat) as [t|] eqn:Hi; simpl; [|done].
    f_equal.
    assert (Hd : dots t = 0%nat).
    { rewrite Forall_forall in Hnew. apply Hnew.
      by apply list_elem_of_lookup_2 in Hi. }
    rewrite bool_decide_eq_true_2.
    + by apply fresh_decorate_refresh.
    + apply Hadded. apply lookup_lt_Some in Hi. lia.
Qed.

Lemma disconnect_held (o : nat) (st : Observers) :
  ObserversInv st -> observer st = Some o -> connected (disconnect o st) = [].
Proof.
  intros [Hc | (o' & Ho & Hc)] Hobs; unfold disconnect; simpl; rewrite Hc.
  - done.
  - rewrite Ho in Hobs. injection Hobs as ->.
    rewrite filter_cons_False, filter_nil; [done|]. tauto.
Qed.

Lemma ObserversInv_setup (b : bool) (st : Observers) :
  ObserversInv st -> ObserversInv (setupObserver b st).
Proof.
  intros HI. unfold setupObserver.
  assert (Hc : connected
            match observer st with
            | Some o => disconnect o st
            | None => st
            end = []).
  { destruct (observer st) as [o|] eqn:Ho; [by apply disconnect_held|].
    destruct HI as [Hc | (o' & Ho' & _)]; [done | congruence]. }
  destruct b; simpl.
  - right. eexists. split; [done|]. by rewrite Hc.
  - by left.
Qed.

Lemma ObserversInv_setups (calls : list bool) (st : Observers) :
  ObserversInv st ->
  ObserversInv (foldl (fun st b => setupObserver b st) st calls).
Proof.
  revert st. induction calls as [|b calls IH]; intros st HI; [done|].
  simpl. by apply IH, ObserversInv_setup.
Qed.

(** X17. However often [setupObserver] runs, with or without the file
    explorer container in the document, at most one observer is
    connected, and it is the one the plugin's field holds; unloading
    then leaves none connected and the field cleared. *)
Theorem setupObserver_keeps_one_observer (st0 : Observers) (calls : list bool) :
  noObserver st0 ->
  let st := foldl (fun st b => setupObserver b st) st0 calls in
  (length (connected st) <= 1)%nat /\
  (forall o, o ∈ connected st -> observer st = Some o) /\
  connected (onunloadObservers st) = [] /\
  observer (onunloadObservers st) = None.
Proof.
  intros [Hobs Hconn] st.
  assert (HI : ObserversInv st).
  { apply ObserversInv_setups. by left. }
  split_and!.
  - destruct HI as [-> | (o & _ & ->)]; simpl; lia.
  - intros o Ho. destruct HI as [Hc | (o' & Ho' & Hc)]; rewrite Hc in Ho.
    + by apply elem_of_nil in Ho.
    + apply list_elem_of_singleton in Ho. by subst o.
  - unfold onunloadObservers. simpl.
    destruct (observer st) as [o|] eqn:Ho; [by apply disconnect_held|].
    destruct HI as [Hc | (o' & Ho' & _)]; [done | congruence].
  - done.
Qed.

End ObserverFacts.

(** ** Unloading *)

Section UnloadFacts.
Import FormatCheck Decoration.
Context (host : JsDate.Host).

(** X18. Unloading a plugin in any reachable state leaves no timer
    pending, so however much time passes afterwards [applyDecorations]
    does not run again; the dots are gone from every title. *)
Theorem onunload_cancels_refresh (w : World) (dom : list NavTitle) :
  reachable host w ->
  timers (onunloadW w) = [] /\
  (forall d, applyRuns (advance d (onunloadW w)) = applyRuns w) /\
  (forall t, t ∈ onunloadDom dom -> dots t = 0%nat).
Proof.
  intros Hr. pose proof (TimerInv_reachable host w Hr) as HI.
  assert (Ht : timers (onunloadW w) = [] /\ applyRuns (onunloadW w) = applyRuns w).
  { unfold onunloadW.
    destruct HI as [_ [[-> Ht] | (id & due & Hid & -> & Ht)]]; [done|].
    rewrite bool_decide_eq_true_2 by lia.
    unfold clearTimeout. simpl. by rewrite Ht, filter_other_id. }
  destruct Ht as [Ht Hruns]. split_and!.
  - done.
  - intros d. unfold advance, runDueTimers. simpl. rewrite Ht. simpl. done.
  - intros t Hin. unfold onunloadDom, removeDots in Hin.
    apply list_elem_of_fmap in Hin as (t0 & -> & _). done.
Qed.

End UnloadFacts.

(** ** The further statements at concrete inputs *)

Section MoreInstances.
Import JsString JsText FormatCheck Examples MoreExamples SettingsTab
       Decoration Exactness.

Lemma scanned_exact : ExactW utc scanned.
Proof. apply Exact_scanAllFiles. Qed.

Lemma scanned_tracks_note : "notes/a.md" ∈ needsFormatPaths scanned.
Proof.
  change (path note ∈ checkFile utc scoped (cacheOf (Some stale)) note ∅).
  apply checkFile_self. unfold verdict. rewrite cacheOf_note. reflexivity.
Qed.

Lemma foldersInput_parsed : parseFolders foldersInput = ["notes"; "library/"].
Proof. reflexivity. Qed.

Lemma scanAllFiles_order_irrelevant_witness :
  scanAllFiles utc scoped (cacheOf (Some stale)) [note; elsewhere]
  = scanAllFiles utc scoped (cacheOf (Some stale)) [elsewhere; note; note].
Proof.
  apply (scanAllFiles_order_irrelevant utc).
  intros f. rewrite !elem_of_cons. pose proof (not_elem_of_nil f). tauto.
Defined.

Lemma changed_and_delete_keep_exact_witness :
  ExactW utc (onChanged utc note
                (hostIndex note {| frontmatter := Some fresh |} scanned)) /\
  ExactW utc (onDelete (AFile note) (hostRemove note scanned)).
Proof.
  destruct (changed_and_delete_keep_exact utc scanned note scanned_exact)
    as [Hchanged Hdelete].
  split; [|exact Hdelete]. apply Hchanged. by left.
Defined.

Lemma rename_keeps_exact_iff_witness :
  ExactW utc
    (onRename utc (AFile renamed) "notes/a.md"
       (hostMove "notes/a.md" renamed
          (Some {| frontmatter := Some stale |}) scanned)).
Proof.
  apply (rename_keeps_exact_iff utc scanned renamed "notes/a.md"
           (Some {| frontmatter := Some stale |}) scanned_exact).
  - by left.
  - intros H. apply elem_of_cons in H as [H | H]; [discriminate H|].
    by apply elem_of_nil in H.
  - left. exact scanned_tracks_note.
Defined.

Lemma toMs_ignores_surrounding_space_witness :
  toMs utc (VString "   ") = None.
Proof.
  apply (proj2 (toMs_ignores_surrounding_space utc "   ")). reflexivity.
Defined.

Lemma root_file_out_of_scope_witness : isInScope scoped "a.md" = false.
Proof.
  apply root_file_out_of_scope; [discriminate | reflexivity].
Defined.

Lemma isInScope_monotone_witness : isInScope nestedScope "notes/a.md" = true.
Proof.
  apply (isInScope_monotone scoped nestedScope).
  - discriminate.
  - intros folder Hin. apply list_elem_of_singleton in Hin. subst folder.
    by left.
  - reflexivity.
Defined.

Lemma parseFolders_entries_clean_witness :
  "notes" <> EmptyString /\ trim "notes" = "notes" /\
  contains newline "notes" = false.
Proof.
  apply (parseFolders_entries_clean foldersInput "notes").
  rewrite foldersInput_parsed. by left.
Defined.

Lemma folders_text_round_trip_witness :
  parseFolders (foldersText nestedScope) = includedFolders nestedScope.
Proof.
  apply (proj1 (folders_text_round_trip nestedScope)).
  repeat constructor; discriminate.
Defined.

Lemma blank_folders_text_means_all_files_witness :
  parseFolders blankInput = [] /\
  isInScope (setIncludedFolders blankInput scoped) "a.md" = true.
Proof.
  apply (blank_folders_text_means_all_files blankInput scoped "a.md").
  reflexivity.
Defined.

Lemma field_name_never_empty_witness :
  formattedField (setFormattedField "  " scoped) = "formatted" /\
  modifiedField (setModifiedField "  " scoped) = "modified".
Proof.
  destruct (field_name_never_empty "  " scoped) as (_ & _ & _ & _ & H & _).
  apply H. reflexivity.
Defined.

Lemma onlyNote_refresh :
  applyDecorationsDom onlyNote tree =
  [ decoratedNote; {| dataPath := None; dots := 0 |}; freshTitle ].
Proof.
  unfold applyDecorationsDom, tree, removeDots, wanted. simpl.
  rewrite bool_decide_eq_true_2 by (by apply elem_of_singleton).
  rewrite bool_decide_eq_false_2; [done|].
  intros H. apply elem_of_singleton in H. discriminate H.
Qed.

Lemma applyDecorations_sets_dots_witness :
  dots decoratedNote = if wanted onlyNote decoratedNote then 1%nat else 0%nat.
Proof.
  destruct (applyDecorations_sets_dots onlyNote tree) as (_ & H & _).
  apply H. rewrite onlyNote_refresh. by left.
Defined.

Lemma observer_adds_missing_dots_only_witness :
  length (onMutations {[ "notes/b.md" ]} [2; 7]%nat tree) = length tree /\
  exists t', onMutations {[ "notes/b.md" ]} [2; 7]%nat tree !! 2%nat = Some t' /\
    dataPath t' = dataPath freshTitle /\
    dots t' =
      if bool_decide (2%nat ∈ [2; 7]%nat) && wanted {[ "notes/b.md" ]} freshTitle
         && (dots freshTitle =? 0)%nat
      then 1%nat else dots freshTitle.
Proof.
  apply (observer_adds_missing_dots_only {[ "notes/b.md" ]} [2; 7]%nat tree 2).
  reflexivity.
Defined.

Lemma decoratedNote_well : WellDecorated onlyNote [decoratedNote].
Proof.
  unfold WellDecorated, applyDecorationsDom, removeDots, wanted. simpl.
  by rewrite bool_decide_eq_true_2 by (by apply elem_of_singleton).
Qed.

Lemma observer_matches_full_refresh_witness :
  onMutations onlyNote [1%nat] ([decoratedNote] ++ [freshTitle])
  = applyDecorationsDom onlyNote ([decoratedNote] ++ [freshTitle]).
Proof.
  apply observer_matches_full_refresh.
  - exact decoratedNote_well.
  - by repeat constructor.
  - intros i Hi. simpl in Hi. replace i with 1%nat by lia. by left.
Defined.

Lemma setupObserver_keeps_one_observer_witness :
  (length (connected (foldl (fun st b => setupObserver b st) noObservers
                        [true; false; true])) <= 1)%nat.
Proof.
  apply (setupObserver_keeps_one_observer noObservers [true; false; true]).
  by split.
Defined.

Lemma onunload_cancels_refresh_witness :
  timers (onunloadW scheduled) = [] /\
  applyRuns (advance 1000 (onunloadW scheduled)) = applyRuns scheduled.
Proof.
  assert (Hr : reachable utc scheduled).
  { exists (world0 None). split.
    - unfold initial. simpl. split_and!; [reflexivity.. | lia].
    - apply rtc_once, step_layout_change. }
  destruct (onunload_cancels_refresh utc scheduled tree Hr) as (Ht & Hruns & _).
  split; [exact Ht | apply Hruns].
Defined.

End MoreInstances.

(** ** Tracked paths are vault files *)

Section TrackedFiles.
Import FormatCheck Examples MoreExamples.

Lemma TrackedUnder_reachable (host : JsDate.Host) (w : World) :
  reachable host w -> TrackedUnder host (fun _ _ => True) w.
Proof.
  intros (w0 & (Hempty & _) & Hrtc).
  assert (H0 : TrackedUnder host (fun _ _ => True) w0).
  { intros p Hp. rewrite Hempty in Hp. by apply not_elem_of_empty in Hp. }
  clear Hempty. induction Hrtc as [w | w1 w2 w3 Hstep _ IH]; [done|].
  apply IH. by apply (TrackedUnder_step host (fun _ _ => True) w1 w2).
Qed.

(** X19. In every reachable state a tracked path is the path of a file
    the vault still lists, and that file has a cache entry with
    frontmatter: a file that was deleted or renamed away is not
    tracked. *)
Theorem tracked_paths_are_vault_files (host : JsDate.Host) (w : World) (p : string) :
  reachable host w ->
  p ∈ needsFormatPaths w ->
  {| path := p |} ∈ markdownFiles w /\
  exists cm fm, metadataCache w !! p = Some cm /\ frontmatter cm = Some fm.
Proof.
  intros Hr Hp.
  destruct (TrackedUnder_reachable host w Hr p Hp) as [Hf (s & _ & Hv)].
  split; [done|]. unfold verdict, getFrontmatter in Hv.
  apply andb_true_iff in Hv as [_ Hv]. simpl in Hv.
  destruct (metadataCache w !! p) as [cm|]; [|discriminate Hv].
  simpl in Hv. destruct (frontmatter cm) as [fm|] eqn:Hfm; [|discriminate Hv].
  by exists cm, fm.
Qed.

Lemma tracked_paths_are_vault_files_witness :
  {| path := "notes/a.md" |} ∈ markdownFiles scanned /\
  exists cm fm, metadataCache scanned !! "notes/a.md" = Some cm /\
                frontmatter cm = Some fm.
Proof.
  apply (tracked_paths_are_vault_files utc scanned "notes/a.md").
  - exists (world0 (Some stale)). split.
    + unfold initial. simpl. split_and!; [reflexivity.. | lia].
    + apply rtc_once, step_layout_ready.
  - exact scanned_tracks_note.
Defined.

End TrackedFiles.
